(** * Static theme generator (src/generators/static-theme.ts)

    A shallow embedding of the site-catalogue codec
    ([parseUrlSelectorConfig], [formatUrlSelectorConfig]), of the
    URL-specificity resolver ([getThemeFor]), of the rule table
    ([createRuleGen], [ruleGenerators]) and of the stylesheet generator
    ([createStaticStylesheet]).

    Modelling conventions.
    - A JavaScript string is a [list ascii]; every [ascii] stands for one
      UTF-16 code unit in the range 0..255 (the Latin-1 block), so
      [length] is the string's [.length].
    - A JavaScript number is a binary64 float ([PrimFloat.float]); the
      arithmetic of [mix] is the IEEE arithmetic of the kernel.
    - A thrown exception is the [Err] case of [result]: [TypeError] for
      the exceptions the runtime raises, [MalformedCatalogue] for
      [new Error('Common theme is missing')].
    - [StaticTheme] objects are property bags: the [url] property, which
      the interface makes mandatory, is a record field, and all other
      properties live in a finite map keyed by property name.
    - Functions imported from other modules ([isUrlInList],
      [applyFilterToColor], [createTextRule]) and the locale-dependent
      [String.prototype.localeCompare] are section variables. *)

From Stdlib Require Import ZArith List Ascii String Floats Uint63 DecimalString Lia Bool.
From stdpp Require Import gmap list strings.

Set Warnings "-inexact-float".

(** ** The JavaScript runtime: strings *)

Abbreviation jstring := (list ascii).

Definition js (s : string) : jstring := list_ascii_of_string s.
Arguments js s%_string.

Module Js.

Definition code (c : ascii) : N := N_of_ascii c.

Definition inRange (lo hi : N) (c : ascii) : bool :=
  ((lo <=? code c) && (code c <=? hi))%N.

(** [A-Z] *)
Definition isUpperAZ (c : ascii) : bool := inRange 65 90 c.
(** [a-z] *)
Definition isLowerAZ (c : ascii) : bool := inRange 97 122 c.
(** [0-9] *)
Definition isDigit (c : ascii) : bool := inRange 48 57 c.

(** WhiteSpace and LineTerminator code units below 256: TAB, LF, VT, FF,
    CR, SP and NBSP.  These are what [String.prototype.trim] strips. *)
Definition isWhiteSpace (c : ascii) : bool :=
  inRange 9 13 c || (code c =? 32)%N || (code c =? 160)%N.

Definition shiftCode (d : Z) (c : ascii) : ascii :=
  ascii_of_N (Z.to_N (Z.of_N (code c) + d)).

(** Upper-case letters of Latin-1 other than A-Z: U+00C0..U+00DE without
    the multiplication sign U+00D7. *)
Definition isUpperLatin1 (c : ascii) : bool :=
  inRange 192 222 c && negb (code c =? 215)%N.

(** Lower-case letters of Latin-1 whose upper case is again in Latin-1:
    U+00E0..U+00FE without the division sign U+00F7. *)
Definition isLowerLatin1 (c : ascii) : bool :=
  inRange 224 254 c && negb (code c =? 247)%N.

Definition toLowerCaseUnit (c : ascii) : ascii :=
  if isUpperAZ c || isUpperLatin1 c then shiftCode 32 c else c.

(** [String.prototype.toLowerCase] *)
Definition toLowerCase (s : jstring) : jstring := map toLowerCaseUnit s.

(** [String.prototype.toUpperCase].  U+00DF upper-cases to the two units
    "SS".  The upper case of U+00B5 and U+00FF lies outside Latin-1; the
    source applies [toUpperCase] only to header words and to the names of
    [staticThemeProps], which are ASCII, and the model leaves these two
    units unchanged. *)
Definition toUpperCaseUnit (c : ascii) : jstring :=
  if isLowerAZ c || isLowerLatin1 c then [shiftCode (-32) c]
  else if (code c =? 223)%N then js "SS"
  else [c].

Definition toUpperCase (s : jstring) : jstring := flat_map toUpperCaseUnit s.

Fixpoint trimStart (s : jstring) : jstring :=
  match s with
  | [] => []
  | c :: s' => if isWhiteSpace c then trimStart s' else s
  end.

Definition trimEnd (s : jstring) : jstring := rev (trimStart (rev s)).

(** [String.prototype.trim] *)
Definition trim (s : jstring) : jstring := trimEnd (trimStart s).

(** [s.split(sep)] for a separator of one code unit: never empty, and
    [''.split(sep)] is [['']]. *)
Fixpoint split (sep : ascii) (s : jstring) : list jstring :=
  match s with
  | [] => [[]]
  | c :: s' =>
      if Ascii.eqb c sep then [] :: split sep s'
      else match split sep s' with
           | w :: ws => (c :: w) :: ws
           | [] => [[c]]
           end
  end.

(** [Array.prototype.join] on an array of strings. *)
Fixpoint join (sep : jstring) (l : list jstring) : jstring :=
  match l with
  | [] => []
  | [x] => x
  | x :: rest => x ++ sep ++ join sep rest
  end.

Definition isEq (c : ascii) : bool := Ascii.eqb c "="%char.

(** The line feed and the carriage return. *)
Definition LF : ascii := "010"%char.
Definition CR : ascii := "013"%char.

(** [s.split(/={2,}/g)]: the delimiters are the maximal runs of two or
    more '='.  [inRun] says that the previous code unit belonged to a
    delimiter, whose remaining '=' are then skipped (the quantifier is
    greedy). *)
Fixpoint splitEqRuns (inRun : bool) (s : jstring) : list jstring :=
  match s with
  | [] => [[]]
  | c :: s' =>
      let startsRun := match s' with c' :: _ => isEq c' | [] => false end in
      if isEq c && inRun then splitEqRuns true s'
      else if isEq c && startsRun then [] :: splitEqRuns true s'
      else match splitEqRuns false s' with
           | w :: ws => (c :: w) :: ws
           | [] => [[c]]
           end
  end.

(** [s.replace(/\r/g, '')] *)
Definition removeCR (s : jstring) : jstring :=
  List.filter (fun c => negb (Ascii.eqb c CR)) s.

(** [Array.prototype.sort] with a comparator, as a stable insertion sort:
    [x], which stands before the elements of [l], stays before [y] unless
    the comparator puts it after ([0 < cmp x y]).  Every stable sort
    returns this result for a comparator that is a total preorder. *)
Fixpoint insertBy {A} (cmp : A -> A -> Z) (x : A) (l : list A) : list A :=
  match l with
  | [] => [x]
  | y :: l' => if (cmp x y <=? 0)%Z then x :: l else y :: insertBy cmp x l'
  end.

Fixpoint sortBy {A} (cmp : A -> A -> Z) (l : list A) : list A :=
  match l with
  | [] => []
  | x :: l' => insertBy cmp x (sortBy cmp l')
  end.

(** [Array.prototype.findIndex], with [None] for -1. *)
Fixpoint findIndex {A} (p : A -> bool) (l : list A) : option nat :=
  match l with
  | [] => None
  | x :: l' => if p x then Some 0 else option_map S (findIndex p l')
  end.

End Js.

(** ** The JavaScript runtime: numbers *)

Module Num.

(** The float whose value is the integer [n], for [|n| <= 2^53]. *)
Definition ofZ (n : Z) : float :=
  match n with
  | Z0 => PrimFloat.zero
  | Zpos _ => PrimFloat.of_uint63 (Uint63.of_Z n)
  | Zneg _ => PrimFloat.opp (PrimFloat.of_uint63 (Uint63.of_Z (Z.opp n)))
  end.

(** [Math.round]: the integer nearest to [x], ties going towards
    +Infinity; NaN, the infinities and the zeros are returned as they
    are, and a result of zero keeps the sign of [x].  A finite float
    [m * 2^e] with [0 <= e] is an integer already; otherwise the result
    is [floor (x + 1/2)], computed exactly on integers. *)
Definition mathRound (x : float) : float :=
  match Prim2SF x with
  | S754_finite s m e =>
      if (0 <=? e)%Z then x
      else
        let k := (- e)%Z in
        let n := ((2 * cond_Zopp s (Zpos m) + 2 ^ k) / 2 ^ (k + 1))%Z in
        if (n =? 0)%Z then (if s then PrimFloat.neg_zero else PrimFloat.zero)
        else ofZ n
  | _ => x
  end.

(** The value of a finite float when it is an integer of magnitude at
    most [2^53]. *)
Definition safeInteger (s : bool) (m : positive) (e : Z) : option Z :=
  let v :=
    if (0 <=? e)%Z then Some (Zpos m * 2 ^ e)%Z
    else if (Zpos m mod 2 ^ (- e) =? 0)%Z then Some (Zpos m / 2 ^ (- e))%Z
    else None in
  match v with
  | Some z => if (z <=? 2 ^ 53)%Z then Some (cond_Zopp s z) else None
  | None => None
  end.

Definition decimal (z : Z) : jstring :=
  list_ascii_of_string (NilZero.string_of_int (Z.to_int z)).

Section ToString.

(** [Number::toString] on the finite numbers that are not integers of
    magnitude at most [2^53] (the shortest digits that read back as the
    same float, with or without exponent) is left to the runtime. *)
Variable shortestDecimal : float -> jstring.

(** [Number::toString], as a template literal applies it. *)
Definition numberToString (x : float) : jstring :=
  match Prim2SF x with
  | S754_nan => js "NaN"
  | S754_zero _ => js "0"
  | S754_infinity false => js "Infinity"
  | S754_infinity true => js "-Infinity"
  | S754_finite s m e =>
      match safeInteger s m e with
      | Some z => decimal z
      | None => shortestDecimal x
      end
  end.

(** A template-literal hole filled with an array element that may be
    missing. *)
Definition holeToString (x : option float) : jstring :=
  match x with
  | Some v => numberToString v
  | None => js "undefined"
  end.

End ToString.

End Num.

(** ** Exceptions *)

Inductive error : Type :=
  | TypeError
  | MalformedCatalogue.

Inductive result (A : Type) : Type :=
  | Ok (a : A)
  | Err (e : error).
Arguments Ok {A} a.
Arguments Err {A} e.

#[global] Instance result_ret : MRet result := fun A a => Ok a.
#[global] Instance result_bind : MBind result := fun A B f m =>
  match m with
  | Ok a => f a
  | Err e => Err e
  end.

(** The sort of [formatUrlSelectorConfig], whose comparator can throw. *)
Fixpoint insertByM {A} (cmp : A -> A -> result Z) (x : A) (l : list A)
  : result (list A) :=
  match l with
  | [] => Ok [x]
  | y :: l' =>
      c ← cmp x y;
      if (c <=? 0)%Z then Ok (x :: l)
      else r ← insertByM cmp x l'; Ok (y :: r)
  end.

Fixpoint sortByM {A} (cmp : A -> A -> result Z) (l : list A)
  : result (list A) :=
  match l with
  | [] => Ok []
  | x :: l' => s ← sortByM cmp l'; insertByM cmp x s
  end.

(** ** Data model *)

(** What a property of a [StaticTheme] other than [url] holds: [true]
    for [noCommon], an array of selectors for the others. *)
Inductive jsvalue : Type :=
  | VBool (b : bool)
  | VArr (l : list jstring).

Record StaticTheme : Type := mkTheme {
  url : list jstring;
  props : gmap jstring jsvalue
}.

(** [theme[prop]] *)
Definition getProp (theme : StaticTheme) (prop : jstring) : option jsvalue :=
  if bool_decide (prop = js "url") then Some (VArr (url theme))
  else props theme !! prop.

(** [theme[prop] = v].  The parser stores a boolean under [noCommon]
    only, so [url] is never given one. *)
Definition setProp (theme : StaticTheme) (prop : jstring) (v : jsvalue)
  : StaticTheme :=
  if bool_decide (prop = js "url") then
    mkTheme (match v with VArr l => l | VBool _ => [] end) (props theme)
  else mkTheme (url theme) (<[prop := v]> (props theme)).

(** Truthiness of a property read: [undefined] and [false] are falsy,
    [true] and every array are truthy. *)
Definition truthy (v : option jsvalue) : bool :=
  match v with
  | Some (VBool b) => b
  | Some (VArr _) => true
  | None => false
  end.

Definition noCommon (theme : StaticTheme) : bool :=
  truthy (props theme !! js "noCommon").

Abbreviation color := (list float).
Abbreviation ThemeColors := (gmap jstring color).

Definition darkTheme : ThemeColors :=
  list_to_map [
    (js "neutralBg", [16; 20; 23]%float);
    (js "neutralText", [167; 158; 139]%float);
    (js "redBg", [64; 12; 32]%float);
    (js "redText", [247; 142; 102]%float);
    (js "greenBg", [32; 64; 48]%float);
    (js "greenText", [128; 204; 148]%float);
    (js "blueBg", [32; 48; 64]%float);
    (js "blueText", [128; 182; 204]%float);
    (js "fadeBg", [16; 20; 23; 0.5]%float);
    (js "fadeText", [167; 158; 139; 0.5]%float)
  ].

Definition lightTheme : ThemeColors :=
  list_to_map [
    (js "neutralBg", [255; 242; 228]%float);
    (js "neutralText", [0; 0; 0]%float);
    (js "redBg", [255; 85; 170]%float);
    (js "redText", [140; 14; 48]%float);
    (js "greenBg", [192; 255; 170]%float);
    (js "greenText", [0; 128; 0]%float);
    (js "blueBg", [173; 215; 229]%float);
    (js "blueText", [28; 16; 171]%float);
    (js "fadeBg", [0; 0; 0; 0.5]%float);
    (js "fadeText", [0; 0; 0; 0.5]%float)
  ].

(** [color1.map((c, i) => Math.round(c * (1 - t) + color2[i] * t))]; a
    missing [color2[i]] is [undefined], which the product turns to NaN. *)
Definition mix (color1 color2 : color) (t : float) : color :=
  imap (fun i c =>
          Num.mathRound (c * (1 - t) + default PrimFloat.nan (color2 !! i) * t)%float)
       color1.

Definition mx_bg_hover : float := 0.075%float.
Definition mx_bg_active : float := 0.1%float.
Definition mx_fg_hover : float := 0.25%float.
Definition mx_fg_active : float := 0.5%float.
Definition mx_border : float := 0.5%float.

Definition staticThemeProps : list jstring := [
  js "noCommon";

  js "neutralBg";
  js "neutralBgActive";
  js "neutralText";
  js "neutralTextActive";
  js "neutralBorder";

  js "redBg";
  js "redBgActive";
  js "redText";
  js "redTextActive";
  js "redBorder";

  js "greenBg";
  js "greenBgActive";
  js "greenText";
  js "greenTextActive";
  js "greenBorder";

  js "blueBg";
  js "blueBgActive";
  js "blueText";
  js "blueTextActive";
  js "blueBorder";

  js "fadeBg";
  js "fadeText";
  js "transparentBg";

  js "noImage";
  js "invert"
].

(** ** CatalogueCodec: the parser *)

Fixpoint foldM {A B} (f : A -> B -> result A) (a : A) (l : list B) : result A :=
  match l with
  | [] => Ok a
  | x :: l' => a' ← f a x; foldM f a' l'
  end.

Definition nonEmpty (l : jstring) : bool :=
  match l with [] => false | _ :: _ => true end.

(** [Boolean(text.match(/^[A-Z ]+$/))] *)
Definition isPropertyName (text : jstring) : bool :=
  nonEmpty text && forallb (fun c => Js.isUpperAZ c || Ascii.eqb c " "%char) text.

(** The property name of a header line: from UPPER CASE to lowerCase. *)
Definition toPropertyName (line : jstring) : jstring :=
  Js.join []
    (imap (fun i word =>
             if (i =? 0)%nat then Js.toLowerCase word
             else Js.toUpperCase (take 1 word) ++ Js.toLowerCase (drop 1 word))
          (Js.split " "%char line)).

(** [block.split('\n').map((l) => l.trim()).filter((l) => l)] *)
Definition blockLines (block : jstring) : list jstring :=
  List.filter nonEmpty (map Js.trim (Js.split Js.LF block)).

(** [lines.slice(0, firstCommandIndex)] *)
Definition urlLines (lines : list jstring) : list jstring :=
  let firstCommandIndex :=
    match Js.findIndex isPropertyName lines with
    | Some i => i
    | None => length lines
    end in
  take firstCommandIndex lines.

(** The body of [lines.slice(url.length).forEach]; the state is [raw]
    and the variable [prop], which is [undefined] before the first
    header. *)
Definition parseLine (st : StaticTheme * option jstring) (line : jstring)
  : result (StaticTheme * option jstring) :=
  let '(raw, prop) := st in
  if isPropertyName line then
    let prop' := toPropertyName line in
    if bool_decide (prop' = js "noCommon")
    then Ok (setProp raw prop' (VBool true), Some prop')
    else Ok (setProp raw prop' (VArr []), Some prop')
  else
    match prop with
    | Some p =>
        match getProp raw p with
        | Some (VArr l) => Ok (setProp raw p (VArr (l ++ [line])), prop)
        | _ => Err TypeError
        end
    | None => Err TypeError
    end.

(** The body of [blocks.forEach]. *)
Definition parseBlock (block : jstring) : result StaticTheme :=
  let lines := blockLines block in
  let url := urlLines lines in
  st ← foldM parseLine (mkTheme url ∅, None) (drop (length url) lines);
  Ok (fst st).

Definition splitBlocks (text : jstring) : list jstring :=
  Js.splitEqRuns false (Js.removeCR text).

(** The catalogue before the common theme is looked for. *)
Definition parseBlocks (text : jstring) : result (list StaticTheme) :=
  mapM parseBlock (splitBlocks text).

Definition getCommonTheme (themes : list StaticTheme) : option StaticTheme :=
  themes !! 0%nat.

(** [common && common.url && common.url[0] === '*'] *)
Definition hasCommonTheme (themes : list StaticTheme) : bool :=
  match getCommonTheme themes with
  | Some common =>
      match url common with
      | u :: _ => bool_decide (u = js "*")
      | [] => false
      end
  | None => false
  end.

Definition parseUrlSelectorConfig (text : jstring) : result (list StaticTheme) :=
  themes ← parseBlocks text;
  if hasCommonTheme themes then Ok themes else Err MalformedCatalogue.

(** ** CatalogueCodec: the formatter *)

(** [text.replace(/([A-Z])/g, ' $1').toUpperCase().trim()] *)
Definition camelCaseToUpperCase (text : jstring) : jstring :=
  Js.trim
    (Js.toUpperCase
       (flat_map (fun c => if Js.isUpperAZ c then [" "%char; c] else [c]) text)).

(** [s.toLowerCase().replace(/[^0-9a-z\.]/g, '')] *)
Definition sortKey (s : jstring) : jstring :=
  List.filter (fun c => Js.isDigit c || Js.isLowerAZ c || Ascii.eqb c "."%char)
              (Js.toLowerCase s).

Definition isArray (v : option jsvalue) : bool :=
  match v with Some (VArr _) => true | _ => false end.

Definition arrayOf (v : option jsvalue) : list jstring :=
  match v with Some (VArr l) => l | _ => [] end.

(** What [staticThemeProps.forEach] pushes for one property. *)
Definition propLines (theme : StaticTheme) (prop : jstring) : list jstring :=
  if (bool_decide (prop = js "noCommon") && noCommon theme)
     || (isArray (getProp theme prop) && (0 <? length (arrayOf (getProp theme prop)))%nat)
  then [] :: camelCaseToUpperCase prop :: arrayOf (getProp theme prop)
  else [].

Definition separator : jstring := repeat "="%char 32.

(** What [themes.forEach] pushes for the theme at index [i] of [n]. *)
Definition themeLines (n i : nat) (theme : StaticTheme) : list jstring :=
  url theme ++ flat_map (propLines theme) staticThemeProps
  ++ (if (i <? n - 1)%nat then [[]; separator; []] else []).

Section Format.

(** [String.prototype.localeCompare], which depends on the locale. *)
Variable localeCompare : jstring -> jstring -> Z.

(** The comparator of the sort; [a.url[0]] is [undefined] for an empty
    list, and its [toLowerCase] throws. *)
Definition compareThemes (a b : StaticTheme) : result Z :=
  match url a, url b with
  | p :: _, q :: _ => Ok (localeCompare (sortKey p) (sortKey q))
  | _, _ => Err TypeError
  end.

Definition sortThemes (staticThemes : list StaticTheme) : result (list StaticTheme) :=
  sortByM compareThemes staticThemes.

Definition formatUrlSelectorConfig (staticThemes : list StaticTheme) : result jstring :=
  themes ← sortThemes staticThemes;
  let lines := concat (imap (themeLines (length themes)) themes) in
  Ok (Js.join [Js.LF] (lines ++ [[]])).

End Format.

(** ** SpecificityResolver *)

Section Resolver.

(** [isUrlInList] of utils/url. *)
Variable isUrlInList : jstring -> list jstring -> bool.

(** [isUrlInList(url, theme.url) ? theme.url[0].length : 0] *)
Definition specificity (pageUrl : jstring) (theme : StaticTheme) : result nat :=
  if isUrlInList pageUrl (url theme) then
    match url theme with
    | p :: _ => Ok (length p)
    | [] => Err TypeError
    end
  else Ok 0%nat.

Definition bySpecificity (a b : nat * StaticTheme) : Z :=
  Z.of_nat (fst b) - Z.of_nat (fst a).

Definition getThemeFor (pageUrl : jstring) (themes : list StaticTheme)
  : result (option StaticTheme) :=
  scored ← mapM (fun theme => s ← specificity pageUrl theme; Ok (s, theme))
                (drop 1 themes);
  let sortedBySpecificity :=
    Js.sortBy bySpecificity
      (List.filter (fun a => (0 <? fst a)%nat) scored) in
  match sortedBySpecificity with
  | [] => Ok None
  | first :: _ => Ok (Some (snd first))
  end.

End Resolver.

(** ** RuleTable *)

Section Generator.

(** See [Num.numberToString]. *)
Variable shortestDecimal : float -> jstring.

Definition hole : option float -> jstring := Num.holeToString shortestDecimal.

(** [rgb([r, g, b, a])]: [typeof a === 'number'] holds when the array has
    a fourth element. *)
Definition rgb (c : color) : jstring :=
  match c !! 3%nat with
  | Some a =>
      js "rgba(" ++ hole (c !! 0%nat) ++ js ", " ++ hole (c !! 1%nat) ++ js ", "
      ++ hole (c !! 2%nat) ++ js ", " ++ hole (Some a) ++ js ")"
  | None =>
      js "rgb(" ++ hole (c !! 0%nat) ++ js ", " ++ hole (c !! 1%nat) ++ js ", "
      ++ hole (c !! 2%nat) ++ js ")"
  end.

(** Reading a role of the palette.  A palette that lacks the role yields
    [undefined], on which [rgb] and [mix] throw. *)
Definition role (t : ThemeColors) (name : string) : result color :=
  match t !! js name with
  | Some c => Ok c
  | None => Err TypeError
  end.

(** Reading a selector list of a theme: [t.neutralBg] and the like. *)
Definition sel (name : string) (t : StaticTheme) : option jsvalue :=
  getProp t (js name).

Definition RuleGen : Type := StaticTheme -> ThemeColors -> result (option jstring).

(** [createRuleGen]; [None] is the [null] of a theme without selectors.
    A selector list that is a boolean has no [length] and no [forEach]. *)
Definition createRuleGen
    (getSelectors : StaticTheme -> option jsvalue)
    (generateDeclarations : ThemeColors -> result (list jstring))
    (modifySelector : jstring -> jstring) : RuleGen :=
  fun siteTheme themeColors =>
    match getSelectors siteTheme with
    | None => Ok None
    | Some (VBool _) => Err TypeError
    | Some (VArr selectors) =>
        if (length selectors =? 0)%nat then Ok None
        else
          let lines :=
            imap (fun i s =>
                    modifySelector s
                    ++ (if (i <? length selectors - 1)%nat then js "," else js " {"))
                 selectors in
          declarations ← generateDeclarations themeColors;
          Ok (Some (Js.join [Js.LF]
                      (lines
                       ++ map (fun d => js "    " ++ d ++ js " !important;") declarations
                       ++ [js "}"])))
    end.

(** The text of a rule: the rewritten selectors, each followed by a
    comma but the last, which opens the block, then the declarations and
    the closing brace. *)
Definition ruleText (modifySelector : jstring -> jstring) (selectors declarations : list jstring)
  : jstring :=
  Js.join [Js.LF]
    (imap (fun i s =>
             modifySelector s
             ++ (if (i <? length selectors - 1)%nat then js "," else js " {"))
          selectors
     ++ map (fun d => js "    " ++ d ++ js " !important;") declarations
     ++ [js "}"]).

Definition same (s : jstring) : jstring := s.
Definition hover (s : jstring) : jstring := s ++ js ":hover".
Definition activeFocus (s : jstring) : jstring := s ++ js ":active, " ++ s ++ js ":focus".

Definition ruleGenerators : list RuleGen := [
  createRuleGen (sel "neutralBg") (fun t => bg ← role t "neutralBg"; Ok [js "background-color: " ++ rgb bg]) same;
  createRuleGen (sel "neutralBgActive") (fun t => bg ← role t "neutralBg"; Ok [js "background-color: " ++ rgb bg]) same;
  createRuleGen (sel "neutralBgActive") (fun t => bg ← role t "neutralBg"; Ok [js "background-color: " ++ rgb (mix bg [255; 255; 255]%float mx_bg_hover)]) hover;
  createRuleGen (sel "neutralBgActive") (fun t => bg ← role t "neutralBg"; Ok [js "background-color: " ++ rgb (mix bg [255; 255; 255]%float mx_bg_active)]) activeFocus;
  createRuleGen (sel "neutralText") (fun t => fg ← role t "neutralText"; Ok [js "color: " ++ rgb fg]) same;
  createRuleGen (sel "neutralTextActive") (fun t => fg ← role t "neutralText"; Ok [js "color: " ++ rgb fg]) same;
  createRuleGen (sel "neutralTextActive") (fun t => fg ← role t "neutralText"; Ok [js "color: " ++ rgb (mix fg [255; 255; 255]%float mx_fg_hover)]) hover;
  createRuleGen (sel "neutralTextActive") (fun t => fg ← role t "neutralText"; Ok [js "color: " ++ rgb (mix fg [255; 255; 255]%float mx_fg_active)]) activeFocus;
  createRuleGen (sel "neutralBorder") (fun t => bg ← role t "neutralBg"; fg ← role t "neutralText"; Ok [js "border-color: " ++ rgb (mix bg fg mx_border)]) same;

  createRuleGen (sel "redBg") (fun t => bg ← role t "redBg"; Ok [js "background-color: " ++ rgb bg]) same;
  createRuleGen (sel "redBgActive") (fun t => bg ← role t "redBg"; Ok [js "background-color: " ++ rgb bg]) same;
  createRuleGen (sel "redBgActive") (fun t => bg ← role t "redBg"; Ok [js "background-color: " ++ rgb (mix bg [255; 0; 64]%float mx_bg_hover)]) hover;
  createRuleGen (sel "redBgActive") (fun t => bg ← role t "redBg"; Ok [js "background-color: " ++ rgb (mix bg [255; 0; 64]%float mx_bg_active)]) activeFocus;
  createRuleGen (sel "redText") (fun t => fg ← role t "redText"; Ok [js "color: " ++ rgb fg]) same;
  createRuleGen (sel "redTextActive") (fun t => fg ← role t "redText"; Ok [js "color: " ++ rgb fg]) same;
  createRuleGen (sel "redTextActive") (fun t => fg ← role t "redText"; Ok [js "color: " ++ rgb (mix fg [255; 255; 0]%float mx_fg_hover)]) hover;
  createRuleGen (sel "redTextActive") (fun t => fg ← role t "redText"; Ok [js "color: " ++ rgb (mix fg [255; 255; 0]%float mx_fg_active)]) activeFocus;
  createRuleGen (sel "redBorder") (fun t => bg ← role t "redBg"; fg ← role t "redText"; Ok [js "border-color: " ++ rgb (mix bg fg mx_border)]) same;

  createRuleGen (sel "greenBg") (fun t => bg ← role t "greenBg"; Ok [js "background-color: " ++ rgb bg]) same;
  createRuleGen (sel "greenBgActive") (fun t => bg ← role t "greenBg"; Ok [js "background-color: " ++ rgb bg]) same;
  createRuleGen (sel "greenBgActive") (fun t => bg ← role t "greenBg"; Ok [js "background-color: " ++ rgb (mix bg [128; 255; 182]%float mx_bg_hover)]) hover;
  createRuleGen (sel "greenBgActive") (fun t => bg ← role t "greenBg"; Ok [js "background-color: " ++ rgb (mix bg [128; 255; 182]%float mx_bg_active)]) activeFocus;
  createRuleGen (sel "greenText") (fun t => fg ← role t "greenText"; Ok [js "color: " ++ rgb fg]) same;
  createRuleGen (sel "greenTextActive") (fun t => fg ← role t "greenText"; Ok [js "color: " ++ rgb fg]) same;
  createRuleGen (sel "greenTextActive") (fun t => fg ← role t "greenText"; Ok [js "color: " ++ rgb (mix fg [182; 255; 224]%float mx_fg_hover)]) hover;
  createRuleGen (sel "greenTextActive") (fun t => fg ← role t "greenText"; Ok [js "color: " ++ rgb (mix fg [182; 255; 224]%float mx_fg_active)]) activeFocus;
  createRuleGen (sel "greenBorder") (fun t => bg ← role t "greenBg"; fg ← role t "greenText"; Ok [js "border-color: " ++ rgb (mix bg fg mx_border)]) same;

  createRuleGen (sel "blueBg") (fun t => bg ← role t "blueBg"; Ok [js "background-color: " ++ rgb bg]) same;
  createRuleGen (sel "blueBgActive") (fun t => bg ← role t "blueBg"; Ok [js "background-color: " ++ rgb bg]) same;
  createRuleGen (sel "blueBgActive") (fun t => bg ← role t "blueBg"; Ok [js "background-color: " ++ rgb (mix bg [0; 128; 255]%float mx_bg_hover)]) hover;
  createRuleGen (sel "blueBgActive") (fun t => bg ← role t "blueBg"; Ok [js "background-color: " ++ rgb (mix bg [0; 128; 255]%float mx_bg_active)]) activeFocus;
  createRuleGen (sel "blueText") (fun t => fg ← role t "blueText"; Ok [js "color: " ++ rgb fg]) same;
  createRuleGen (sel "blueTextActive") (fun t => fg ← role t "blueText"; Ok [js "color: " ++ rgb fg]) same;
  createRuleGen (sel "blueTextActive") (fun t => fg ← role t "blueText"; Ok [js "color: " ++ rgb (mix fg [182; 224; 255]%float mx_fg_hover)]) hover;
  createRuleGen (sel "blueTextActive") (fun t => fg ← role t "blueText"; Ok [js "color: " ++ rgb (mix fg [182; 224; 255]%float mx_fg_active)]) activeFocus;
  createRuleGen (sel "blueBorder") (fun t => bg ← role t "blueBg"; fg ← role t "blueText"; Ok [js "border-color: " ++ rgb (mix bg fg mx_border)]) same;

  createRuleGen (sel "fadeBg") (fun t => bg ← role t "fadeBg"; Ok [js "background-color: " ++ rgb bg]) same;
  createRuleGen (sel "fadeText") (fun t => fg ← role t "fadeText"; Ok [js "color: " ++ rgb fg]) same;
  createRuleGen (sel "transparentBg") (fun t => Ok [js "background-color: transparent"]) same;
  createRuleGen (sel "noImage") (fun t => Ok [js "background-image: none"]) same;
  createRuleGen (sel "invert") (fun t => Ok [js "filter: invert(100%) hue-rotate(180deg)"]) same
].

(** ** StylesheetGenerator *)

(** The fields of [FilterConfig] that the generator does not read
    (brightness, contrast and so on). *)
Variable OtherSettings : Type.

Record FilterConfig : Type := mkConfig {
  mode : Z;
  useFont : bool;
  textStroke : float;
  otherSettings : OtherSettings
}.

(** [applyFilterToColor] of generators/utils/matrix, [createTextRule] of
    generators/text-style and [isUrlInList] of utils/url. *)
Variable applyFilterToColor : color -> FilterConfig -> color.
Variable createTextRule : FilterConfig -> jstring.
Variable isUrlInList : jstring -> list jstring -> bool.

(** [{...config, mode: 0}] *)
Definition withModeZero (config : FilterConfig) : FilterConfig :=
  mkConfig 0 (useFont config) (textStroke config) (otherSettings config).

Definition srcThemeOf (config : FilterConfig) : ThemeColors :=
  if (mode config =? 1)%Z then darkTheme else lightTheme.

(** [Object.entries(srcTheme).reduce(..., {})] *)
Definition filteredTheme (config : FilterConfig) : ThemeColors :=
  foldl (fun t '(prop, c) => <[prop := applyFilterToColor c (withModeZero config)]> t)
        ∅ (map_to_list (srcThemeOf config)).

(** An element of [lines] survives [filter((ln) => ln)] when it is
    neither [null] nor the empty string. *)
Definition keptLine (ln : option jstring) : option jstring :=
  match ln with
  | Some (c :: s) => Some (c :: s)
  | _ => None
  end.

(** [ruleGenerators.map((gen) => gen(theme, colors))]; [theme] is
    [undefined] when the catalogue is empty, and reading a selector list
    of it throws. *)
Definition runRuleGenerators (theme : option StaticTheme) (colors : ThemeColors)
  : result (list (option jstring)) :=
  match theme with
  | Some t => mapM (fun gen : RuleGen => gen t colors) ruleGenerators
  | None => Err TypeError
  end.

Definition commonBlock (siteTheme : option StaticTheme) (commonTheme : option StaticTheme)
    (theme : ThemeColors) : result (list (option jstring)) :=
  if match siteTheme with Some s => negb (noCommon s) | None => true end then
    rules ← runRuleGenerators commonTheme theme;
    Ok (Some (js "/* Common theme */") :: rules)
  else Ok [].

Definition siteBlock (siteTheme : option StaticTheme) (theme : ThemeColors)
  : result (list (option jstring)) :=
  match siteTheme with
  | Some s =>
      rules ← runRuleGenerators (Some s) theme;
      Ok (Some (js "/* Theme for " ++ Js.join (js " ") (url s) ++ js " */") :: rules)
  | None => Ok []
  end.

Definition fontBlock (config : FilterConfig) : list (option jstring) :=
  if useFont config || (0 <? textStroke config)%float then
    [Some (js "/* Font */"); Some (js "* " ++ createTextRule config)]
  else [].

(** The array [lines] before it is filtered and joined. *)
Definition stylesheetLines (config : FilterConfig) (pageUrl : jstring)
    (staticThemes : list StaticTheme) : result (list (option jstring)) :=
  let theme := filteredTheme config in
  let commonTheme := getCommonTheme staticThemes in
  siteTheme ← getThemeFor isUrlInList pageUrl staticThemes;
  common ← commonBlock siteTheme commonTheme theme;
  site ← siteBlock siteTheme theme;
  Ok (common ++ site ++ fontBlock config).

Definition createStaticStylesheet (config : FilterConfig) (pageUrl : jstring)
    (staticThemes : list StaticTheme) : result jstring :=
  lines ← stylesheetLines config pageUrl staticThemes;
  Ok (Js.join [Js.LF] (omap keptLine lines)).

End Generator.

Arguments mkConfig {OtherSettings} mode useFont textStroke otherSettings.
Arguments mode {OtherSettings} f.
Arguments useFont {OtherSettings} f.
Arguments textStroke {OtherSettings} f.
Arguments otherSettings {OtherSettings} f.
Arguments withModeZero {OtherSettings} config.
Arguments srcThemeOf {OtherSettings} config.
Arguments filteredTheme {OtherSettings} applyFilterToColor config.
Arguments fontBlock {OtherSettings} createTextRule config.
Arguments stylesheetLines shortestDecimal {OtherSettings} applyFilterToColor
  createTextRule isUrlInList config pageUrl staticThemes.
Arguments createStaticStylesheet shortestDecimal {OtherSettings} applyFilterToColor
  createTextRule isUrlInList config pageUrl staticThemes.

(** * Properties *)

(** ** The error monad *)

Lemma bind_Ok {A B} (m : result A) (f : A -> result B) (b : B) :
  m ≫= f = Ok b <-> exists a, m = Ok a /\ f a = Ok b.
Proof.
  destruct m as [a|e]; simpl; split.
  - intros H; exists a; auto.
  - intros (a' & Ha & Hf); congruence.
  - discriminate.
  - intros (a' & Ha & _); discriminate.
Qed.

Lemma mapM_Ok_map {A B} (f : A -> result B) (g : A -> B) (l : list A) :
  (forall x, x ∈ l -> f x = Ok (g x)) -> mapM f l = Ok (map g l).
Proof.
  induction l as [|x l IH]; intros H; simpl; [reflexivity|].
  rewrite (H x) by constructor. simpl.
  rewrite IH by (intros y Hy; apply H; now constructor). reflexivity.
Qed.

Lemma mapM_Ok_length {A B} (f : A -> result B) (l : list A) (k : list B) :
  mapM f l = Ok k -> Forall2 (fun x y => f x = Ok y) l k.
Proof.
  revert k; induction l as [|x l IH]; intros k; simpl.
  - intros [= <-]; constructor.
  - destruct (f x) as [y|e] eqn:Hx; simpl; [|discriminate].
    destruct (mapM f l) as [k'|e] eqn:Hl; simpl; [|discriminate].
    intros [= <-]. constructor; auto.
Qed.

(** ** SpecificityResolver *)

Section ResolverFacts.

Variable isUrlInList : jstring -> list jstring -> bool.

(** [theme.url[0].length], for a theme that has a primary pattern. *)
Definition primaryLength (theme : StaticTheme) : nat :=
  match url theme with
  | p :: _ => length p
  | [] => 0
  end.

Definition score (pageUrl : jstring) (theme : StaticTheme) : nat :=
  if isUrlInList pageUrl (url theme) then primaryLength theme else 0.

(** A candidate: the matcher accepts the theme's patterns and the primary
    pattern is not the empty string. *)
Definition isCandidate (pageUrl : jstring) (theme : StaticTheme) : bool :=
  isUrlInList pageUrl (url theme) && (0 <? primaryLength theme)%nat.

Lemma isCandidate_score pageUrl theme :
  isCandidate pageUrl theme = true <-> 0 < score pageUrl theme.
Proof.
  unfold isCandidate, score.
  destruct (isUrlInList pageUrl (url theme)); simpl.
  - apply Nat.ltb_lt.
  - split; [discriminate | lia].
Qed.

Lemma score_candidate pageUrl theme :
  isCandidate pageUrl theme = true -> score pageUrl theme = primaryLength theme.
Proof.
  unfold isCandidate, score.
  destruct (isUrlInList pageUrl (url theme)); simpl; [reflexivity | discriminate].
Qed.

Lemma specificity_score pageUrl theme :
  url theme <> [] -> specificity isUrlInList pageUrl theme = Ok (score pageUrl theme).
Proof.
  unfold specificity, score, primaryLength. intros H.
  destruct (isUrlInList pageUrl (url theme)); [|reflexivity].
  destruct (url theme); [contradiction | reflexivity].
Qed.

(** The first element of the sorted list is the first element of
    greatest score of the list that was sorted. *)
Lemma sortBy_first_greatest pageUrl (l : list StaticTheme) :
  match Js.sortBy bySpecificity
          (List.filter (fun a => (0 <? fst a)%nat)
                       (map (fun t => (score pageUrl t, t)) l)) with
  | [] => forall t, t ∈ l -> score pageUrl t = 0
  | x :: _ =>
      fst x = score pageUrl (snd x) /\ 0 < fst x /\
      exists p q, l = p ++ snd x :: q
        /\ (forall t, t ∈ p -> score pageUrl t < fst x)
        /\ (forall t, t ∈ q -> score pageUrl t <= fst x)
  end.
Proof.
  induction l as [|t l IH]; simpl.
  - intros t Ht. inversion Ht.
  - destruct (0 <? score pageUrl t)%nat eqn:Hpos; simpl.
    + apply Nat.ltb_lt in Hpos.
      destruct (Js.sortBy bySpecificity _) as [|x s].
      * simpl. split; [reflexivity|]. split; [assumption|].
        exists [], l. split; [reflexivity|]. split.
        -- intros t' Ht'. inversion Ht'.
        -- intros t' Ht'. rewrite (IH t' Ht'). lia.
      * destruct IH as (Hx & Hx0 & p & q & -> & Hp & Hq).
        simpl. unfold bySpecificity at 1. simpl.
        destruct (Z.leb_spec (Z.of_nat (fst x) - Z.of_nat (score pageUrl t)) 0).
        -- simpl. split; [reflexivity|]. split; [assumption|].
           exists [], (p ++ snd x :: q). split; [reflexivity|]. split.
           ++ intros t' Ht'. inversion Ht'.
           ++ intros t' Ht'. apply elem_of_app in Ht' as [Ht'|Ht'].
              ** specialize (Hp _ Ht'). lia.
              ** apply elem_of_cons in Ht' as [->|Ht'].
                 --- lia.
                 --- specialize (Hq _ Ht'). lia.
        -- split; [assumption|]. split; [assumption|].
           exists (t :: p), q. split; [reflexivity|]. split; [|assumption].
           intros t' Ht'. apply elem_of_cons in Ht' as [->|Ht'].
           ++ lia.
           ++ auto.
    + apply Nat.ltb_ge in Hpos.
      destruct (Js.sortBy bySpecificity _) as [|x s].
      * intros t' Ht'. apply elem_of_cons in Ht' as [->|Ht']; [lia | auto].
      * destruct IH as (Hx & Hx0 & p & q & -> & Hp & Hq).
        split; [assumption|]. split; [assumption|].
        exists (t :: p), q. split; [reflexivity|]. split; [|assumption].
        intros t' Ht'. apply elem_of_cons in Ht' as [->|Ht'].
        -- lia.
        -- auto.
Qed.

(** What [getThemeFor] returns on a catalogue whose themes after the
    first all have a primary pattern. *)
Lemma getThemeFor_first_greatest pageUrl themes :
  Forall (fun t => url t <> []) (drop 1 themes) ->
  exists r, getThemeFor isUrlInList pageUrl themes = Ok r /\
    match r with
    | None => forall t, t ∈ drop 1 themes -> score pageUrl t = 0
    | Some x =>
        0 < score pageUrl x /\
        exists p q, drop 1 themes = p ++ x :: q
          /\ (forall t, t ∈ p -> score pageUrl t < score pageUrl x)
          /\ (forall t, t ∈ q -> score pageUrl t <= score pageUrl x)
    end.
Proof.
  intros Hurl. unfold getThemeFor.
  rewrite (mapM_Ok_map _ (fun t => (score pageUrl t, t))).
  2:{ intros t Ht. rewrite Forall_forall in Hurl.
      rewrite specificity_score by auto. reflexivity. }
  simpl.
  pose proof (sortBy_first_greatest pageUrl (drop 1 themes)) as H.
  destruct (Js.sortBy bySpecificity _) as [|x s].
  - exists None. split; [reflexivity | exact H].
  - destruct H as (Hx & Hx0 & p & q & Hl & Hp & Hq).
    exists (Some (snd x)). split; [reflexivity|].
    rewrite <- Hx. split; [assumption|]. exists p, q. auto.
Qed.

End ResolverFacts.

Section ResolverClaims.

Variable isUrlInList : jstring -> list jstring -> bool.

#[local] Abbreviation isCandidate := (isCandidate isUrlInList).
#[local] Abbreviation score := (score isUrlInList).

Lemma score_le_primaryLength pageUrl (t x : StaticTheme) :
  isCandidate pageUrl t = true -> isCandidate pageUrl x = true ->
  score pageUrl t <= score pageUrl x -> primaryLength t <= primaryLength x.
Proof.
  intros Ht Hx. now rewrite !score_candidate.
Qed.

(** C3.  [getThemeFor] looks at the themes of index 1 and above only.  A
    theme is a candidate when [isUrlInList] accepts its url list and its
    primary pattern has a length greater than 0.  The result is a
    candidate of greatest primary-pattern length, and it is none exactly
    when there is no candidate. *)
Theorem getThemeFor_greatest_candidate pageUrl themes :
  Forall (fun t => url t <> []) (drop 1 themes) ->
  (forall other, drop 1 other = drop 1 themes ->
     getThemeFor isUrlInList pageUrl other = getThemeFor isUrlInList pageUrl themes) /\
  exists r, getThemeFor isUrlInList pageUrl themes = Ok r /\
    match r with
    | None => forall t, t ∈ drop 1 themes -> isCandidate pageUrl t = false
    | Some x =>
        x ∈ drop 1 themes /\ isCandidate pageUrl x = true /\
        forall t, t ∈ drop 1 themes -> isCandidate pageUrl t = true ->
                  primaryLength t <= primaryLength x
    end.
Proof.
  intros Hurl. split.
  { intros other Hother. unfold getThemeFor. now rewrite Hother. }
  destruct (getThemeFor_first_greatest isUrlInList pageUrl themes Hurl) as (r & Hr & H).
  exists r. split; [assumption|]. destruct r as [x|].
  - destruct H as (Hx & p & q & Hl & Hp & Hq).
    assert (Hcx : isCandidate pageUrl x = true) by now apply isCandidate_score.
    split; [|split; [assumption|]].
    + rewrite Hl. apply elem_of_app. right. constructor.
    + intros t Ht Hct. apply (score_le_primaryLength pageUrl); try assumption.
      rewrite Hl in Ht. apply elem_of_app in Ht as [Ht|Ht].
      * specialize (Hp _ Ht). lia.
      * apply elem_of_cons in Ht as [->|Ht]; [lia | auto].
  - intros t Ht. specialize (H t Ht).
    destruct (isCandidate pageUrl t) eqn:Hc; [|reflexivity].
    apply isCandidate_score in Hc. lia.
Qed.

(** C4.  When two themes [a] and [b] of index 1 or above, [a] standing
    before [b], are both candidates with primary patterns of one length,
    and no candidate has a longer one, [getThemeFor] returns a theme of
    that length that stands at the place of [a] or before it, every
    candidate before the returned theme being strictly shorter: the
    earliest of the tied themes wins, and it is [a] itself when no theme
    before [a] ties with it. *)
Theorem getThemeFor_tie_break pageUrl common l1 a l2 b l3 :
  Forall (fun t => url t <> []) (l1 ++ a :: l2 ++ b :: l3) ->
  isCandidate pageUrl a = true ->
  isCandidate pageUrl b = true ->
  primaryLength a = primaryLength b ->
  (forall t, t ∈ l1 ++ l2 ++ l3 -> isCandidate pageUrl t = true ->
             primaryLength t <= primaryLength a) ->
  exists r,
    getThemeFor isUrlInList pageUrl (common :: l1 ++ a :: l2 ++ b :: l3) = Ok (Some r)
    /\ isCandidate pageUrl r = true
    /\ primaryLength r = primaryLength a
    /\ (exists p q, l1 ++ [a] = p ++ r :: q /\
          forall t, t ∈ p -> isCandidate pageUrl t = true ->
                    primaryLength t < primaryLength a)
    /\ ((forall t, t ∈ l1 -> isCandidate pageUrl t = true ->
                   primaryLength t < primaryLength a) -> r = a).
Proof.
  intros Hurl Ha Hb Hab Hmax.
  set (tail := l1 ++ a :: l2 ++ b :: l3) in *.
  destruct (getThemeFor_first_greatest isUrlInList pageUrl (common :: tail)) as (r & Hr & H);
    [exact Hurl|].
  change (drop 1 (common :: tail)) with tail in H.
  assert (Hsa : 0 < score pageUrl a) by now apply isCandidate_score.
  destruct r as [r|].
  2:{ assert (a ∈ tail) as Hin by (apply elem_of_app; right; constructor).
      specialize (H _ Hin). lia. }
  destruct H as (Hr0 & p & q & Hl & Hp & Hq).
  assert (Hcr : isCandidate pageUrl r = true) by now apply isCandidate_score.
  (* every candidate of the tail is at most as long as [a] *)
  assert (Hall : forall t, t ∈ tail -> isCandidate pageUrl t = true ->
                           primaryLength t <= primaryLength a).
  { intros t Ht Hct. unfold tail in Ht.
    apply elem_of_app in Ht as [Ht|Ht].
    - apply Hmax; [|assumption]. apply elem_of_app; now left.
    - apply elem_of_cons in Ht as [->|Ht]; [lia|].
      apply elem_of_app in Ht as [Ht|Ht].
      + apply Hmax; [|assumption]. apply elem_of_app; right. apply elem_of_app; now left.
      + apply elem_of_cons in Ht as [->|Ht]; [lia|].
        apply Hmax; [|assumption]. apply elem_of_app; right. apply elem_of_app; now right. }
  assert (Hra : primaryLength r <= primaryLength a).
  { apply Hall; [|assumption]. rewrite Hl. apply elem_of_app; right; constructor. }
  (* [a] does not stand in [p] *)
  assert (Hlen : length p <= length l1).
  { destruct (Nat.le_gt_cases (length p) (length l1)) as [|Hgt]; [assumption|].
    exfalso.
    assert (p !! length l1 = Some a) as Hpa.
    { rewrite <- (lookup_app_l p (r :: q)) by assumption.
      rewrite <- Hl. unfold tail.
      rewrite lookup_app_r by lia. now rewrite Nat.sub_diag. }
    apply list_elem_of_lookup_2 in Hpa. specialize (Hp _ Hpa).
    rewrite !score_candidate in Hp by assumption. lia. }
  assert (Hsplit : l1 ++ [a] = p ++ r :: take (length l1 - length p) q).
  { assert (take (S (length l1)) tail = l1 ++ [a]) as <-.
    { unfold tail. rewrite take_app_ge by lia.
      replace (S (length l1) - length l1) with 1 by lia. reflexivity. }
    rewrite Hl. rewrite take_app_ge by lia.
    replace (S (length l1) - length p) with (S (length l1 - length p)) by lia.
    reflexivity. }
  assert (Har : primaryLength a <= primaryLength r).
  { assert (a ∈ r :: q) as Hin.
    { assert (a ∈ l1 ++ [a]) as Hin by (apply elem_of_app; right; constructor).
      rewrite Hsplit in Hin. apply elem_of_app in Hin as [Hin|Hin].
      - specialize (Hp _ Hin). rewrite !score_candidate in Hp by assumption. lia.
      - apply elem_of_cons in Hin as [->|Hin]; [constructor|].
        constructor. eapply subseteq_take; eassumption. }
    apply elem_of_cons in Hin as [->|Hin]; [lia|].
    apply (score_le_primaryLength pageUrl); auto. }
  exists r. split; [exact Hr|]. split; [assumption|]. split; [lia|]. split.
  - exists p, (take (length l1 - length p) q). split; [assumption|].
    intros t Ht Hct. specialize (Hp _ Ht).
    rewrite !score_candidate in Hp by assumption. lia.
  - intros Hl1.
    destruct (decide (length p = length l1)) as [Heq|Hne].
    + apply app_inj_1 in Hsplit as [_ Hsplit]; [|lia].
      rewrite Heq, Nat.sub_diag in Hsplit. simpl in Hsplit. congruence.
    + exfalso.
      assert (r ∈ l1) as Hin.
      { assert (l1 !! length p = Some r) as Hlk.
        { rewrite <- (lookup_app_l l1 [a]) by lia.
          rewrite Hsplit. rewrite lookup_app_r by lia.
          now rewrite Nat.sub_diag. }
        eapply list_elem_of_lookup_2; eassumption. }
      specialize (Hl1 _ Hin Hcr). lia.
Qed.

End ResolverClaims.

(** ** StylesheetGenerator: the derived palette *)

Lemma foldl_insert_list_to_map {A B} (f : A -> B) (l : list (jstring * A)) :
  NoDup l.*1 ->
  foldl (fun (t : gmap jstring B) '(k, c) => <[k := f c]> t) ∅ l
  = list_to_map (prod_map id f <$> l).
Proof.
  induction l as [|[k c] l IH] using rev_ind; intros Hnd; [reflexivity|].
  rewrite fmap_app in Hnd. apply NoDup_app in Hnd as (Hl & Hk & _).
  rewrite foldl_app, fmap_app. simpl.
  rewrite list_to_map_snoc.
  - now rewrite IH.
  - intros Hin. apply (Hk k).
    + rewrite <- list_fmap_compose in Hin.
      erewrite list_fmap_ext in Hin; [exact Hin|]. now intros [].
    + simpl. constructor.
Qed.

Section PaletteFacts.

Context {OtherSettings : Type}.
Variable applyFilterToColor : color -> FilterConfig OtherSettings -> color.

Lemma filteredTheme_fmap (config : FilterConfig OtherSettings) :
  filteredTheme applyFilterToColor config
  = (fun c => applyFilterToColor c (withModeZero config)) <$> srcThemeOf config.
Proof.
  unfold filteredTheme.
  rewrite (foldl_insert_list_to_map
             (fun c => applyFilterToColor c (withModeZero config))).
  - now rewrite list_to_map_fmap, list_to_map_to_list.
  - apply NoDup_fst_map_to_list.
Qed.

Lemma role_filteredTheme (config : FilterConfig OtherSettings) (name : string) :
  role (filteredTheme applyFilterToColor config) name
  = match srcThemeOf config !! js name with
    | Some c => Ok (applyFilterToColor c (withModeZero config))
    | None => Err TypeError
    end.
Proof.
  unfold role. rewrite filteredTheme_fmap, lookup_fmap.
  now destruct (srcThemeOf config !! js name).
Qed.

(** C7.  The base palette is the dark one when [config.mode] is 1 and the
    light one otherwise; the derived palette, on which the rule table is
    run, has exactly the roles of the base palette, each holding the base
    colour passed through [applyFilterToColor] with the caller's config
    whose mode is replaced by 0 and whose other fields are kept. *)
Theorem filteredTheme_roles (config : FilterConfig OtherSettings) :
  srcThemeOf config = (if (mode config =? 1)%Z then darkTheme else lightTheme)
  /\ (forall name : jstring,
        filteredTheme applyFilterToColor config !! name
        = (fun c => applyFilterToColor c (withModeZero config))
            <$> srcThemeOf config !! name)
  /\ dom (filteredTheme applyFilterToColor config) = dom (srcThemeOf config)
  /\ mode (withModeZero config) = 0%Z
  /\ useFont (withModeZero config) = useFont config
  /\ textStroke (withModeZero config) = textStroke config
  /\ otherSettings (withModeZero config) = otherSettings config
  /\ (forall shortestDecimal createTextRule isUrlInList pageUrl staticThemes,
        stylesheetLines shortestDecimal applyFilterToColor createTextRule isUrlInList
                        config pageUrl staticThemes
        = (siteTheme ← getThemeFor isUrlInList pageUrl staticThemes;
           common ← commonBlock shortestDecimal siteTheme (getCommonTheme staticThemes)
                                (filteredTheme applyFilterToColor config);
           site ← siteBlock shortestDecimal siteTheme
                            (filteredTheme applyFilterToColor config);
           Ok (common ++ site ++ fontBlock createTextRule config))).
Proof.
  split; [reflexivity|]. split.
  - intros name. now rewrite filteredTheme_fmap, lookup_fmap.
  - split; [|repeat split].
    rewrite filteredTheme_fmap. apply dom_fmap_L.
Qed.

End PaletteFacts.

(** ** RuleTable *)

(** The rows of the role table that have hover and active variants: the
    index in [ruleGenerators] of the base-state rule of the [Active]
    selector list (the hover rule and the active rule follow it), the
    selector list, the role, the CSS property, the accent and the two
    mixing weights. *)
Record StateRule : Type := mkStateRule {
  baseIndex : nat;
  activeProp : string;
  baseRole : string;
  cssProperty : string;
  accent : color;
  hoverWeight : float;
  activeWeight : float
}.

Definition stateRules : list StateRule := [
  mkStateRule 1 "neutralBgActive" "neutralBg" "background-color" [255; 255; 255]%float mx_bg_hover mx_bg_active;
  mkStateRule 5 "neutralTextActive" "neutralText" "color" [255; 255; 255]%float mx_fg_hover mx_fg_active;
  mkStateRule 10 "redBgActive" "redBg" "background-color" [255; 0; 64]%float mx_bg_hover mx_bg_active;
  mkStateRule 14 "redTextActive" "redText" "color" [255; 255; 0]%float mx_fg_hover mx_fg_active;
  mkStateRule 19 "greenBgActive" "greenBg" "background-color" [128; 255; 182]%float mx_bg_hover mx_bg_active;
  mkStateRule 23 "greenTextActive" "greenText" "color" [182; 255; 224]%float mx_fg_hover mx_fg_active;
  mkStateRule 28 "blueBgActive" "blueBg" "background-color" [0; 128; 255]%float mx_bg_hover mx_bg_active;
  mkStateRule 32 "blueTextActive" "blueText" "color" [182; 224; 255]%float mx_fg_hover mx_fg_active
].

(** The border rows: index, background role and text role. *)
Definition borderRules : list (nat * string * string) := [
  (8, "neutralBg", "neutralText");
  (17, "redBg", "redText");
  (26, "greenBg", "greenText");
  (35, "blueBg", "blueText")
]%nat.

(** The roles of a palette. *)
Definition roleNames : list string := [
  "neutralBg"; "neutralText"; "redBg"; "redText"; "greenBg"; "greenText";
  "blueBg"; "blueText"; "fadeBg"; "fadeText"
]%string.

Lemma createRuleGen_spec gs gd ms theme colors :
  createRuleGen gs gd ms theme colors
  = match gs theme with
    | None => Ok None
    | Some (VBool _) => Err TypeError
    | Some (VArr []) => Ok None
    | Some (VArr (s :: ss)) => d ← gd colors; Ok (Some (ruleText ms (s :: ss) d))
    end.
Proof.
  unfold createRuleGen, ruleText. destruct (gs theme) as [[b|[|s ss]]|]; reflexivity.
Qed.

Lemma mix_lookup color1 color2 t i c a :
  color1 !! i = Some c -> color2 !! i = Some a ->
  mix color1 color2 t !! i = Some (Num.mathRound (c * (1 - t) + a * t)%float).
Proof.
  intros H1 H2. unfold mix. rewrite list_lookup_imap, H1, H2. reflexivity.
Qed.

Section RuleFacts.

Variable shortestDecimal : float -> jstring.

(** C6.  A channel of a mixed colour is [round (c * (1 - t) + a * t)].
    The weights are 0.075 (background hover), 0.1 (background active),
    0.25 (text hover), 0.5 (text active) and 0.5 (border); each hover
    and active rule declares the role's base colour mixed with the
    accent of the role at the weight of its state, each border rule the
    background colour mixed with the text colour at 0.5.  Mixing
    [16, 20, 23] with [255, 255, 255] at 0.075 is rendered
    [rgb(34, 38, 40)]. *)
Theorem mix_weights :
  (forall color1 color2 t i c a,
     color1 !! i = Some c -> color2 !! i = Some a ->
     mix color1 color2 t !! i = Some (Num.mathRound (c * (1 - t) + a * t)%float))
  /\ (forall color1 color2 t, length (mix color1 color2 t) = length color1)
  /\ mx_bg_hover = 0.075%float /\ mx_bg_active = 0.1%float
  /\ mx_fg_hover = 0.25%float /\ mx_fg_active = 0.5%float /\ mx_border = 0.5%float
  /\ Forall (fun r =>
       hoverWeight r = (if String.eqb (cssProperty r) "color" then mx_fg_hover else mx_bg_hover)
       /\ activeWeight r = (if String.eqb (cssProperty r) "color" then mx_fg_active else mx_bg_active)
       /\ exists gs gd gs' gd',
         ruleGenerators shortestDecimal !! (baseIndex r + 1)%nat = Some (createRuleGen gs gd hover)
         /\ ruleGenerators shortestDecimal !! (baseIndex r + 2)%nat
            = Some (createRuleGen gs' gd' activeFocus)
         /\ forall (t : ThemeColors) base, t !! js (baseRole r) = Some base ->
              gd t = Ok [js (cssProperty r) ++ js ": "
                         ++ rgb shortestDecimal (mix base (accent r) (hoverWeight r))]
              /\ gd' t = Ok [js (cssProperty r) ++ js ": "
                             ++ rgb shortestDecimal (mix base (accent r) (activeWeight r))])
       stateRules
  /\ Forall (fun '(i, bgRole, fgRole) =>
       exists gs gd,
         ruleGenerators shortestDecimal !! i = Some (createRuleGen gs gd same)
         /\ forall (t : ThemeColors) bg fg,
              t !! js bgRole = Some bg -> t !! js fgRole = Some fg ->
              gd t = Ok [js "border-color: " ++ rgb shortestDecimal (mix bg fg mx_border)])
       borderRules
  /\ mix [16; 20; 23]%float [255; 255; 255]%float 0.075%float = [34; 38; 40]%float
  /\ rgb shortestDecimal (mix [16; 20; 23]%float [255; 255; 255]%float 0.075%float)
     = js "rgb(34, 38, 40)".
Proof.
  split; [exact mix_lookup|].
  split; [intros; unfold mix; apply length_imap|].
  do 5 (split; [reflexivity|]).
  split.
  { unfold stateRules.
    repeat (apply Forall_cons_2;
            [ split; [reflexivity|]; split; [reflexivity|];
              do 4 eexists; split; [reflexivity|]; split; [reflexivity|];
              intros t base Hbase; unfold role; cbn [baseRole] in Hbase; rewrite Hbase;
              split; reflexivity |]).
    apply Forall_nil_2. }
  split.
  { unfold borderRules.
    repeat (apply Forall_cons_2;
            [ do 2 eexists; split; [reflexivity|];
              intros t bg fg Hbg Hfg; unfold role; rewrite Hbg; cbn [mbind result_bind];
              rewrite Hfg; reflexivity |]).
    apply Forall_nil_2. }
  split; [vm_compute; reflexivity|].
  vm_compute; reflexivity.
Qed.

End RuleFacts.

Section TableFacts.

Variable shortestDecimal : float -> jstring.
Context {OtherSettings : Type}.
Variable applyFilterToColor : color -> FilterConfig OtherSettings -> color.

Lemma srcThemeOf_role (config : FilterConfig OtherSettings) (name : string) :
  name ∈ roleNames -> exists src, srcThemeOf config !! js name = Some src.
Proof.
  intros H. unfold srcThemeOf, roleNames in *.
  destruct (mode config =? 1)%Z;
    repeat (apply elem_of_cons in H as [->|H]; [vm_compute; eauto|]);
    inversion H.
Qed.



End TableFacts.

(** ** StylesheetGenerator: the blocks of the stylesheet *)

Lemma mapM_Forall_Ok {A B} (f : A -> result B) (P : B -> Prop) (l : list A) :
  Forall (fun x => exists y, f x = Ok y /\ P y) l ->
  exists k, mapM f l = Ok k /\ Forall P k.
Proof.
  induction 1 as [|x l (y & Hy & HP) _ (k & Hk & HPk)]; simpl.
  - exists []. split; [reflexivity | constructor].
  - exists (y :: k). rewrite Hy. simpl. rewrite Hk. split; [reflexivity|].
    now constructor.
Qed.

Lemma join_snoc_suffix sep (l : list jstring) (x : jstring) :
  exists pre, Js.join sep (l ++ [x]) = pre ++ x.
Proof.
  induction l as [|y l (pre & IH)]; simpl.
  - now exists [].
  - destruct (l ++ [x]) as [|z k] eqn:E.
    + destruct l; discriminate E.
    + exists (y ++ sep ++ pre). rewrite IH. now rewrite !app_assoc.
Qed.

Lemma join_cons_prefix sep (x : jstring) (l : list jstring) :
  Js.join sep (x :: l) = x ++ match l with [] => [] | _ :: _ => sep ++ Js.join sep l end.
Proof.
  destruct l; simpl; [now rewrite app_nil_r | reflexivity].
Qed.

(** Every property of a theme other than [noCommon] holds an array, as
    the [StaticTheme] interface declares. *)
Definition typedTheme (theme : StaticTheme) : Prop :=
  forall k b, k <> js "noCommon" -> getProp theme k <> Some (VBool b).

(** A rule of the table, when it is generated, ends with the closing
    brace. *)
Definition isRule (ln : option jstring) : Prop :=
  match ln with
  | Some text => exists pre, text = pre ++ js "}"
  | None => True
  end.

Lemma ruleText_isRule ms selectors declarations :
  isRule (Some (ruleText ms selectors declarations)).
Proof.
  unfold isRule, ruleText. rewrite app_assoc. apply join_snoc_suffix.
Qed.

Lemma rule_not_comment (ln : option jstring) :
  isRule ln -> ln <> Some (js "/* Common theme */").
Proof.
  intros Hr ->. destruct Hr as (pre & Hpre).
  apply (f_equal (@rev ascii)) in Hpre. rewrite rev_app_distr in Hpre.
  cbn in Hpre. discriminate Hpre.
Qed.

Section StylesheetFacts.

Variable shortestDecimal : float -> jstring.
Context {OtherSettings : Type}.
Variable applyFilterToColor : color -> FilterConfig OtherSettings -> color.
Variable createTextRule : FilterConfig OtherSettings -> jstring.
Variable isUrlInList : jstring -> list jstring -> bool.

Ltac rule_runs config :=
  rewrite createRuleGen_spec; unfold sel;
  match goal with
  | Ht : typedTheme ?t |- context [getProp ?t ?k] =>
      let E := fresh "E" in
      destruct (getProp t k) as [[?|[|? ?]]|] eqn:E;
      [ exfalso; refine (Ht k _ _ E); intros Hk; vm_compute in Hk; discriminate Hk
      | eexists; split; [reflexivity | exact I]
      | rewrite ?role_filteredTheme;
        repeat match goal with
               | |- context [srcThemeOf config !! js ?n] =>
                   let src := fresh "src" in
                   destruct (srcThemeOf_role config n) as [src ->];
                   [ unfold roleNames; repeat constructor |]
               end;
        eexists; split; [reflexivity | apply ruleText_isRule]
      | eexists; split; [reflexivity | exact I] ]
  end.

(** The rule table runs on every typed theme and every derived palette. *)
Lemma runRuleGenerators_Ok (config : FilterConfig OtherSettings) (theme : StaticTheme) :
  typedTheme theme ->
  exists rules,
    runRuleGenerators shortestDecimal (Some theme) (filteredTheme applyFilterToColor config)
    = Ok rules
    /\ Forall isRule rules.
Proof.
  intros Ht. unfold runRuleGenerators.
  apply (mapM_Forall_Ok
           (fun gen : RuleGen => gen theme (filteredTheme applyFilterToColor config))).
  unfold ruleGenerators.
  repeat (apply Forall_cons_2; [rule_runs config|]).
  apply Forall_nil_2.
Qed.

End StylesheetFacts.

Section StylesheetClaims.

Variable shortestDecimal : float -> jstring.
Context {OtherSettings : Type}.
Variable applyFilterToColor : color -> FilterConfig OtherSettings -> color.
Variable createTextRule : FilterConfig OtherSettings -> jstring.
Variable isUrlInList : jstring -> list jstring -> bool.

Lemma fontBlock_not_comment (config : FilterConfig OtherSettings) :
  Some (js "/* Common theme */") ∉ fontBlock createTextRule config.
Proof.
  unfold fontBlock. destruct (_ || _); intros H.
  - apply elem_of_cons in H as [H|H]; [discriminate H|].
    apply elem_of_cons in H as [H|H]; [discriminate H | inversion H].
  - inversion H.
Qed.

(** C5.  On a catalogue of typed themes whose first is [common]: when
    [getThemeFor] selects a theme whose [noCommon] is true, [lines] holds
    the block of that theme and the font block only, and no element of
    it is the comment of the common theme; when it selects none, or one
    whose [noCommon] is falsy, [lines] starts with the comment of the
    common theme followed by the output of the rule table on [common],
    and so does the stylesheet.  The output of the rule table on a theme
    is the list of what every entry of [ruleGenerators], in order,
    returns for this theme and the derived palette. *)
Theorem noCommon_suppresses_common_block
    (config : FilterConfig OtherSettings) pageUrl common rest :
  typedTheme common ->
  Forall typedTheme rest ->
  Forall (fun t => url t <> []) rest ->
  exists siteTheme lines,
    getThemeFor isUrlInList pageUrl (common :: rest) = Ok siteTheme
    /\ stylesheetLines shortestDecimal applyFilterToColor createTextRule isUrlInList
                       config pageUrl (common :: rest) = Ok lines
    /\ createStaticStylesheet shortestDecimal applyFilterToColor createTextRule isUrlInList
                              config pageUrl (common :: rest)
       = Ok (Js.join [Js.LF] (omap keptLine lines))
    /\ match siteTheme with
       | Some s =>
           exists srules,
             Forall2 (fun (gen : RuleGen) rule =>
                        gen s (filteredTheme applyFilterToColor config) = Ok rule)
                     (ruleGenerators shortestDecimal) srules
             /\ if noCommon s then
                  lines = (Some (js "/* Theme for " ++ Js.join (js " ") (url s) ++ js " */")
                           :: srules) ++ fontBlock createTextRule config
                  /\ Some (js "/* Common theme */") ∉ lines
                else
                  exists crules,
                    Forall2 (fun (gen : RuleGen) rule =>
                               gen common (filteredTheme applyFilterToColor config) = Ok rule)
                            (ruleGenerators shortestDecimal) crules
                    /\ lines = (Some (js "/* Common theme */") :: crules)
                               ++ (Some (js "/* Theme for " ++ Js.join (js " ") (url s)
                                         ++ js " */") :: srules)
                               ++ fontBlock createTextRule config
       | None =>
           exists crules,
             Forall2 (fun (gen : RuleGen) rule =>
                        gen common (filteredTheme applyFilterToColor config) = Ok rule)
                     (ruleGenerators shortestDecimal) crules
             /\ lines = (Some (js "/* Common theme */") :: crules)
                        ++ fontBlock createTextRule config
       end
    /\ (match siteTheme with Some s => noCommon s = false | None => True end ->
        exists crules others text,
          Forall2 (fun (gen : RuleGen) rule =>
                     gen common (filteredTheme applyFilterToColor config) = Ok rule)
                  (ruleGenerators shortestDecimal) crules
          /\ lines = Some (js "/* Common theme */") :: crules ++ others
          /\ createStaticStylesheet shortestDecimal applyFilterToColor createTextRule
                                    isUrlInList config pageUrl (common :: rest)
             = Ok (Js.join [Js.LF]
                     (js "/* Common theme */" :: omap keptLine crules ++ omap keptLine others))
          /\ createStaticStylesheet shortestDecimal applyFilterToColor createTextRule
                                    isUrlInList config pageUrl (common :: rest)
             = Ok (js "/* Common theme */" ++ text)).
Proof.
  intros Hcommon Hrest Hurl.
  destruct (getThemeFor_first_greatest isUrlInList pageUrl (common :: rest) Hurl)
    as (siteTheme & Hsite & Hfirst).
  destruct (runRuleGenerators_Ok shortestDecimal applyFilterToColor config common Hcommon)
    as (crules & Hcrules & Hcr).
  assert (Hgen : forall theme rules,
             runRuleGenerators shortestDecimal (Some theme)
                               (filteredTheme applyFilterToColor config) = Ok rules ->
             Forall2 (fun (gen : RuleGen) rule =>
                        gen theme (filteredTheme applyFilterToColor config) = Ok rule)
                     (ruleGenerators shortestDecimal) rules).
  { intros theme rules H. unfold runRuleGenerators in H.
    exact (mapM_Ok_length _ _ _ H). }
  assert (Hout : forall lines,
             stylesheetLines shortestDecimal applyFilterToColor createTextRule isUrlInList
                             config pageUrl (common :: rest) = Ok lines ->
             createStaticStylesheet shortestDecimal applyFilterToColor createTextRule
                                    isUrlInList config pageUrl (common :: rest)
             = Ok (Js.join [Js.LF] (omap keptLine lines))).
  { intros lines Hl. unfold createStaticStylesheet. now rewrite Hl. }
  assert (Hbegin : forall others lines,
             lines = Some (js "/* Common theme */") :: crules ++ others ->
             stylesheetLines shortestDecimal applyFilterToColor createTextRule isUrlInList
                             config pageUrl (common :: rest) = Ok lines ->
             exists crules' others' text,
               Forall2 (fun (gen : RuleGen) rule =>
                          gen common (filteredTheme applyFilterToColor config) = Ok rule)
                       (ruleGenerators shortestDecimal) crules'
               /\ lines = Some (js "/* Common theme */") :: crules' ++ others'
               /\ createStaticStylesheet shortestDecimal applyFilterToColor createTextRule
                                         isUrlInList config pageUrl (common :: rest)
                  = Ok (Js.join [Js.LF]
                          (js "/* Common theme */"
                           :: omap keptLine crules' ++ omap keptLine others'))
               /\ createStaticStylesheet shortestDecimal applyFilterToColor createTextRule
                                         isUrlInList config pageUrl (common :: rest)
                  = Ok (js "/* Common theme */" ++ text)).
  { intros others lines -> Hl. exists crules, others. eexists.
    split; [exact (Hgen _ _ Hcrules)|]. split; [reflexivity|].
    rewrite (Hout _ Hl). cbn [omap list_omap keptLine js list_ascii_of_string].
    rewrite omap_app. split; [reflexivity|].
    rewrite join_cons_prefix. reflexivity. }
  destruct siteTheme as [s|].
  - destruct Hfirst as (_ & p & q & Hpq & _).
    change (drop 1 (common :: rest)) with rest in Hpq.
    assert (Hs : typedTheme s).
    { rewrite Forall_forall in Hrest. apply Hrest. rewrite Hpq.
      apply elem_of_app. right. constructor. }
    destruct (runRuleGenerators_Ok shortestDecimal applyFilterToColor config s Hs)
      as (srules & Hsrules & Hsr).
    destruct (noCommon s) eqn:Hnc.
    + eexists (Some s), _. split; [exact Hsite|].
      assert (Hl : stylesheetLines shortestDecimal applyFilterToColor createTextRule
                     isUrlInList config pageUrl (common :: rest)
                   = Ok ((Some (js "/* Theme for " ++ Js.join (js " ") (url s) ++ js " */")
                          :: srules) ++ fontBlock createTextRule config)).
      { unfold stylesheetLines. rewrite Hsite. cbn [mbind result_bind].
        unfold commonBlock, siteBlock. rewrite Hnc, Hsrules. reflexivity. }
      split; [exact Hl|]. split; [exact (Hout _ Hl)|]. split.
      * exists srules. split; [exact (Hgen _ _ Hsrules)|]. rewrite Hnc.
        split; [reflexivity|].
        intros Hin. apply elem_of_app in Hin as [Hin|Hin].
        -- apply elem_of_cons in Hin as [Hin|Hin]; [discriminate Hin|].
           rewrite Forall_forall in Hsr. exact (rule_not_comment _ (Hsr _ Hin) eq_refl).
        -- exact (fontBlock_not_comment config Hin).
      * rewrite Hnc. discriminate.
    + eexists (Some s), _. split; [exact Hsite|].
      assert (Hl : stylesheetLines shortestDecimal applyFilterToColor createTextRule
                     isUrlInList config pageUrl (common :: rest)
                   = Ok ((Some (js "/* Common theme */") :: crules)
                         ++ (Some (js "/* Theme for " ++ Js.join (js " ") (url s) ++ js " */")
                             :: srules)
                         ++ fontBlock createTextRule config)).
      { unfold stylesheetLines. rewrite Hsite. cbn [mbind result_bind].
        unfold commonBlock, siteBlock. rewrite Hnc. cbn [negb getCommonTheme lookup list_lookup].
        rewrite Hcrules, Hsrules. reflexivity. }
      split; [exact Hl|]. split; [exact (Hout _ Hl)|]. split.
      * exists srules. split; [exact (Hgen _ _ Hsrules)|]. rewrite Hnc.
        exists crules. split; [exact (Hgen _ _ Hcrules) | reflexivity].
      * intros _. eapply Hbegin; [|exact Hl]. reflexivity.
  - eexists None, _. split; [exact Hsite|].
    assert (Hl : stylesheetLines shortestDecimal applyFilterToColor createTextRule
                   isUrlInList config pageUrl (common :: rest)
                 = Ok ((Some (js "/* Common theme */") :: crules)
                       ++ fontBlock createTextRule config)).
    { unfold stylesheetLines. rewrite Hsite. cbn [mbind result_bind].
      unfold commonBlock, siteBlock. cbn [getCommonTheme lookup list_lookup].
      rewrite Hcrules. reflexivity. }
    split; [exact Hl|]. split; [exact (Hout _ Hl)|]. split.
    + exists crules. split; [exact (Hgen _ _ Hcrules) | reflexivity].
    + intros _. eapply Hbegin; [|exact Hl]. reflexivity.
Qed.

End StylesheetClaims.

(** ** CatalogueCodec: the parser *)

Lemma getProp_setProp_arr raw p l : getProp (setProp raw p (VArr l)) p = Some (VArr l).
Proof.
  unfold getProp, setProp. destruct (bool_decide (p = js "url")) eqn:E; simpl.
  - reflexivity.
  - apply lookup_insert_eq.
Qed.

Lemma getProp_setProp_bool raw p b :
  p <> js "url" -> getProp (setProp raw p (VBool b)) p = Some (VBool b).
Proof.
  intros Hp. unfold getProp, setProp.
  rewrite bool_decide_eq_false_2 by assumption. simpl. apply lookup_insert_eq.
Qed.

Lemma url_setProp_ne raw p v : p <> js "url" -> url (setProp raw p v) = url raw.
Proof.
  intros Hp. unfold setProp. now rewrite bool_decide_eq_false_2 by assumption.
Qed.

Lemma foldM_app {A B} (f : A -> B -> result A) (a : A) (l1 l2 : list B) :
  foldM f a (l1 ++ l2) = (a' ← foldM f a l1; foldM f a' l2).
Proof.
  revert a; induction l1 as [|x l1 IH]; intros a; simpl; [reflexivity|].
  destruct (f a x) as [a'|e]; simpl; [apply IH | reflexivity].
Qed.

(** Whether [forEach], started with [prop] on [lines], meets a body line
    while [prop] is [undefined] or [noCommon]. *)
Fixpoint runsInto (prop : option jstring) (lines : list jstring) : bool :=
  match lines with
  | [] => false
  | line :: rest =>
      if isPropertyName line then runsInto (Some (toPropertyName line)) rest
      else match prop with
           | Some p => bool_decide (p = js "noCommon") || runsInto prop rest
           | None => true
           end
  end.

(** Whether a body line directly follows a header whose property name is
    [noCommon] ([NO COMMON] is such a header). *)
Fixpoint noCommonBody (lines : list jstring) : bool :=
  match lines with
  | [] => false
  | header :: rest =>
      match rest with
      | body :: _ =>
          isPropertyName header
          && bool_decide (toPropertyName header = js "noCommon")
          && negb (isPropertyName body)
      | [] => false
      end
      || noCommonBody rest
  end.

Definition bodyAfterNoCommon (text : jstring) : bool :=
  existsb (fun block => noCommonBody (blockLines block)) (splitBlocks text).

(** What the loop of [parseBlock] keeps true: the current property
    holds [true] when it is [noCommon] and an array otherwise. *)
Definition propHolds (raw : StaticTheme) (prop : option jstring) : Prop :=
  match prop with
  | Some p =>
      if bool_decide (p = js "noCommon") then getProp raw p = Some (VBool true)
      else exists l, getProp raw p = Some (VArr l)
  | None => True
  end.

Lemma parseLine_spec raw prop line :
  propHolds raw prop ->
  if isPropertyName line then
    exists raw', parseLine (raw, prop) line = Ok (raw', Some (toPropertyName line))
                 /\ propHolds raw' (Some (toPropertyName line))
  else
    match prop with
    | Some p =>
        if bool_decide (p = js "noCommon") then parseLine (raw, prop) line = Err TypeError
        else exists raw', parseLine (raw, prop) line = Ok (raw', prop) /\ propHolds raw' prop
    | None => parseLine (raw, prop) line = Err TypeError
    end.
Proof.
  intros Hinv. unfold parseLine.
  destruct (isPropertyName line).
  - destruct (bool_decide (toPropertyName line = js "noCommon")) eqn:E.
    + eexists. split; [reflexivity|]. unfold propHolds. rewrite E.
      apply getProp_setProp_bool. apply bool_decide_eq_true in E. rewrite E.
      intros H. vm_compute in H. discriminate H.
    + eexists. split; [reflexivity|]. unfold propHolds. rewrite E.
      eexists. apply getProp_setProp_arr.
  - destruct prop as [p|]; [|reflexivity].
    unfold propHolds in Hinv.
    destruct (bool_decide (p = js "noCommon")) eqn:E.
    + now rewrite Hinv.
    + destruct Hinv as (l & ->). eexists. split; [reflexivity|].
      unfold propHolds. rewrite E. eexists. apply getProp_setProp_arr.
Qed.

Lemma foldM_parseLine_spec lines raw prop :
  propHolds raw prop ->
  if runsInto prop lines then foldM parseLine (raw, prop) lines = Err TypeError
  else exists st, foldM parseLine (raw, prop) lines = Ok st.
Proof.
  revert raw prop; induction lines as [|line rest IH]; intros raw prop Hinv;
    cbn [foldM runsInto].
  - eauto.
  - pose proof (parseLine_spec raw prop line Hinv) as H.
    destruct (isPropertyName line).
    + destruct H as (raw' & -> & Hinv'). cbn [mbind result_bind]. now apply IH.
    + destruct prop as [p|].
      * destruct (bool_decide (p = js "noCommon")); cbn [orb].
        -- now rewrite H.
        -- destruct H as (raw' & -> & Hinv'). cbn [mbind result_bind]. now apply IH.
      * now rewrite H.
Qed.

Lemma urlLines_cons line lines :
  urlLines (line :: lines)
  = if isPropertyName line then [] else line :: urlLines lines.
Proof.
  unfold urlLines. simpl. destruct (isPropertyName line); [reflexivity|].
  destruct (Js.findIndex isPropertyName lines); reflexivity.
Qed.

Lemma runsInto_Some p lines :
  runsInto (Some p) lines
  = match lines with
    | body :: _ => bool_decide (p = js "noCommon") && negb (isPropertyName body)
    | [] => false
    end
    || noCommonBody lines.
Proof.
  revert p; induction lines as [|line rest IH]; intros p; [reflexivity|].
  cbn [runsInto noCommonBody].
  destruct (isPropertyName line) eqn:Hl.
  - rewrite IH. cbn [negb andb]. rewrite andb_false_r. reflexivity.
  - rewrite IH. cbn [negb andb orb]. rewrite andb_true_r.
    destruct (bool_decide (p = js "noCommon")); destruct rest; reflexivity.
Qed.

Lemma runsInto_urlLines lines :
  runsInto None (drop (length (urlLines lines)) lines) = noCommonBody lines.
Proof.
  induction lines as [|line rest IH]; [reflexivity|].
  rewrite urlLines_cons. cbn [noCommonBody].
  destruct (isPropertyName line) eqn:Hl.
  - cbn [length drop runsInto]. rewrite Hl. rewrite runsInto_Some. reflexivity.
  - cbn [length drop]. rewrite IH. cbn [andb].
    destruct rest; reflexivity.
Qed.

(** A block is parsed unless a body line follows a [noCommon] header, in
    which case the [push] on [true] throws. *)
Lemma parseBlock_spec block :
  if noCommonBody (blockLines block) then parseBlock block = Err TypeError
  else exists theme, parseBlock block = Ok theme.
Proof.
  unfold parseBlock. rewrite <- runsInto_urlLines.
  pose proof (foldM_parseLine_spec
                (drop (length (urlLines (blockLines block))) (blockLines block))
                (mkTheme (urlLines (blockLines block)) ∅) None I) as H.
  destruct (runsInto None _).
  - now rewrite H.
  - destruct H as (st & ->). simpl. eauto.
Qed.

Lemma parseBlocks_spec text :
  if bodyAfterNoCommon text then parseBlocks text = Err TypeError
  else exists themes, parseBlocks text = Ok themes
                      /\ length themes = length (splitBlocks text).
Proof.
  unfold parseBlocks, bodyAfterNoCommon.
  induction (splitBlocks text) as [|block blocks IH]; simpl.
  - exists []. auto.
  - pose proof (parseBlock_spec block) as H.
    destruct (noCommonBody (blockLines block)); simpl.
    + now rewrite H.
    + destruct H as (theme & ->). simpl.
      destruct (existsb _ blocks).
      * now rewrite IH.
      * destruct IH as (themes & -> & Hlen). simpl. eexists. split; [reflexivity|].
        simpl. now rewrite Hlen.
Qed.

Lemma noCommonBody_app before header body after :
  isPropertyName header = true ->
  toPropertyName header = js "noCommon" ->
  isPropertyName body = false ->
  noCommonBody (before ++ header :: body :: after) = true.
Proof.
  intros Hh Hp Hb. induction before as [|line before IH].
  - cbn [app noCommonBody]. rewrite Hh, Hb, Hp. reflexivity.
  - cbn [app noCommonBody]. rewrite IH. apply orb_true_r.
Qed.

Lemma hasCommonTheme_true themes :
  hasCommonTheme themes = true
  <-> exists common others more, themes = common :: others /\ url common = js "*" :: more.
Proof.
  unfold hasCommonTheme, getCommonTheme. split.
  - destruct themes as [|common others]; [discriminate|]. cbn [lookup list_lookup].
    destruct (url common) as [|u more] eqn:Hu; [discriminate|].
    intros H. apply bool_decide_eq_true in H. subst u.
    exists common, others, more. auto.
  - intros (common & others & more & -> & Hu). cbn [lookup list_lookup].
    rewrite Hu. now apply bool_decide_eq_true.
Qed.

(** C9.  When, in some block of the text, a line that is no header
    directly follows a header whose property name is [noCommon] (the
    line [NO COMMON]), the parse fails with the [TypeError] of the push
    on [true]: it returns no catalogue and does not raise
    [MalformedCatalogue]. *)
Theorem body_after_noCommon_throws text block before header body after :
  block ∈ splitBlocks text ->
  blockLines block = before ++ header :: body :: after ->
  isPropertyName header = true ->
  toPropertyName header = js "noCommon" ->
  isPropertyName body = false ->
  parseUrlSelectorConfig text = Err TypeError
  /\ (forall themes, parseUrlSelectorConfig text <> Ok themes)
  /\ parseUrlSelectorConfig text <> Err MalformedCatalogue.
Proof.
  intros Hin Hlines Hh Hp Hb.
  assert (H : parseUrlSelectorConfig text = Err TypeError).
  { unfold parseUrlSelectorConfig.
    pose proof (parseBlocks_spec text) as Hs.
    assert (Hbad : bodyAfterNoCommon text = true).
    { unfold bodyAfterNoCommon. apply existsb_exists. exists block. split.
      - now apply list_elem_of_In.
      - rewrite Hlines. now apply noCommonBody_app. }
    rewrite Hbad in Hs. now rewrite Hs. }
  rewrite H. repeat split; intros; discriminate.
Qed.

(** C1, as the code has it.  [MalformedCatalogue] is raised exactly when
    every block is parsed (no body line follows a [noCommon] header) and
    the theme at index 0 does not have [url[0] === '*']; the catalogue
    is returned exactly when every block is parsed and the theme at
    index 0 has it; a text with a body line after a [noCommon] header
    raises [TypeError].  So a text none of whose themes has the primary
    pattern ['*'] yields no catalogue, and [MalformedCatalogue] when its
    blocks are parsed. *)
Theorem MalformedCatalogue_iff text :
  (parseUrlSelectorConfig text = Err MalformedCatalogue
   <-> bodyAfterNoCommon text = false
       /\ exists themes, parseBlocks text = Ok themes /\ hasCommonTheme themes = false)
  /\ (forall themes,
        parseUrlSelectorConfig text = Ok themes
        <-> bodyAfterNoCommon text = false
            /\ parseBlocks text = Ok themes /\ hasCommonTheme themes = true)
  /\ (parseUrlSelectorConfig text = Err TypeError <-> bodyAfterNoCommon text = true)
  /\ (forall themes,
        hasCommonTheme themes = true
        <-> exists common others more,
              themes = common :: others /\ url common = js "*" :: more)
  /\ (forall themes,
        parseBlocks text = Ok themes ->
        (forall theme more, theme ∈ themes -> url theme <> js "*" :: more) ->
        parseUrlSelectorConfig text = Err MalformedCatalogue).
Proof.
  pose proof (parseBlocks_spec text) as Hs.
  unfold parseUrlSelectorConfig.
  destruct (bodyAfterNoCommon text).
  - rewrite Hs. cbn [mbind result_bind].
    split; [split; [discriminate | intros [H _]; discriminate H]|].
    split; [intros themes; split; [discriminate | intros [H _]; discriminate H]|].
    split; [split; reflexivity|].
    split; [exact hasCommonTheme_true|].
    intros themes H. discriminate H.
  - destruct Hs as (themes & Hthemes & _). rewrite Hthemes. cbn [mbind result_bind].
    split.
    { split.
      - intros H. split; [reflexivity|]. exists themes. split; [reflexivity|].
        destruct (hasCommonTheme themes); [discriminate H | reflexivity].
      - intros (_ & themes' & [= <-] & ->). reflexivity. }
    split.
    { intros themes'. split.
      - destruct (hasCommonTheme themes) eqn:Hc; [|discriminate].
        intros [= <-]. auto.
      - intros (_ & [= <-] & ->). reflexivity. }
    split.
    { split; [|discriminate]. destruct (hasCommonTheme themes); discriminate. }
    split; [exact hasCommonTheme_true|].
    intros themes' [= <-] Hnone.
    destruct (hasCommonTheme themes) eqn:Hc; [|reflexivity].
    apply hasCommonTheme_true in Hc as (common & others & more & -> & Hu).
    exfalso. apply (Hnone common more); [constructor | exact Hu].
Qed.

Lemma parseLine_url raw prop line raw' prop' :
  (isPropertyName line = true -> toPropertyName line <> js "url") ->
  prop <> Some (js "url") ->
  parseLine (raw, prop) line = Ok (raw', prop') ->
  url raw' = url raw /\ prop' <> Some (js "url").
Proof.
  intros Hline Hprop. unfold parseLine.
  destruct (isPropertyName line).
  - specialize (Hline eq_refl).
    destruct (bool_decide (toPropertyName line = js "noCommon"));
      intros [= <- <-]; (split; [now apply url_setProp_ne | congruence]).
  - destruct prop as [p|]; [|discriminate].
    destruct (getProp raw p) as [[b|l]|]; try discriminate.
    intros [= <- <-]. split; [|assumption].
    apply url_setProp_ne. congruence.
Qed.

Lemma foldM_parseLine_url lines raw prop st :
  (forall line, line ∈ lines -> isPropertyName line = true -> toPropertyName line <> js "url") ->
  prop <> Some (js "url") ->
  foldM parseLine (raw, prop) lines = Ok st ->
  url (fst st) = url raw.
Proof.
  revert raw prop; induction lines as [|line rest IH]; intros raw prop Hlines Hprop;
    cbn [foldM].
  - now intros [= <-].
  - destruct (parseLine (raw, prop) line) as [[raw' prop']|e] eqn:E; [|discriminate].
    cbn [mbind result_bind]. intros H.
    apply parseLine_url in E as [Hu Hp]; [| |assumption].
    + rewrite <- Hu. apply (IH raw' prop'); [|assumption|assumption].
      intros l Hl. apply Hlines. now constructor.
    + apply Hlines. constructor.
Qed.

Lemma urlLines_prefix lines :
  exists rest,
    lines = urlLines lines ++ rest
    /\ Forall (fun line => isPropertyName line = false) (urlLines lines)
    /\ match rest with
       | header :: _ => isPropertyName header = true
       | [] => True
       end.
Proof.
  induction lines as [|line lines (rest & Hl & Hu & Hr)].
  - exists []. repeat split. constructor.
  - rewrite urlLines_cons. destruct (isPropertyName line) eqn:E.
    + exists (line :: lines). repeat split; [constructor | assumption].
    + exists rest. split; [|split; [|assumption]].
      * simpl. now rewrite <- Hl.
      * now constructor.
Qed.

(** C8, as the code has it.  The url list of a theme that the parser
    returns is made of the lines of its block that stand before the
    first header, unless a header of the block has the property name
    [url]; it is empty when the block starts with a header or has no
    line.  The theme at index 0 of a returned catalogue has a url list
    that is not empty: it starts with ['*']. *)
Theorem parsed_url_lists text themes :
  parseUrlSelectorConfig text = Ok themes ->
  Forall2 (fun block theme =>
             (forall line, line ∈ blockLines block -> isPropertyName line = true ->
                           toPropertyName line <> js "url") ->
             url theme = urlLines (blockLines block)
             /\ exists rest,
                  blockLines block = url theme ++ rest
                  /\ Forall (fun line => isPropertyName line = false) (url theme)
                  /\ match rest with
                     | header :: _ => isPropertyName header = true
                     | [] => True
                     end)
          (splitBlocks text) themes
  /\ exists common others more, themes = common :: others /\ url common = js "*" :: more.
Proof.
  unfold parseUrlSelectorConfig. intros H.
  apply bind_Ok in H as (themes' & Hblocks & H).
  destruct (hasCommonTheme themes') eqn:Hc; [|discriminate].
  injection H as <-. split; [|now apply hasCommonTheme_true].
  unfold parseBlocks in Hblocks. apply mapM_Ok_length in Hblocks.
  eapply Forall2_impl; [exact Hblocks|].
  intros block theme Hb Hno. cbn beta in Hb.
  assert (Hu : url theme = urlLines (blockLines block)).
  { unfold parseBlock in Hb. apply bind_Ok in Hb as (st & Hst & [= <-]).
    apply foldM_parseLine_url in Hst; [exact Hst| |discriminate].
    intros line Hline. apply Hno.
    apply list_elem_of_In. apply list_elem_of_In in Hline.
    rewrite <- (take_drop (length (urlLines (blockLines block))) (blockLines block)).
    apply in_or_app. now right. }
  split; [exact Hu|]. rewrite Hu. apply urlLines_prefix.
Qed.

(** ** Typed themes, decided *)

Definition typedThemeb (theme : StaticTheme) : bool :=
  forallb (fun kv : jstring * jsvalue =>
             bool_decide (kv.1 = js "noCommon") || isArray (Some kv.2))
          (map_to_list (props theme)).

Lemma typedThemeb_typed theme : typedThemeb theme = true -> typedTheme theme.
Proof.
  unfold typedThemeb, typedTheme, getProp. intros H k b Hk.
  destruct (bool_decide (k = js "url")); [discriminate|].
  intros Hlk. apply elem_of_map_to_list in Hlk. apply list_elem_of_In in Hlk.
  rewrite forallb_forall in H. specialize (H _ Hlk). cbn in H.
  rewrite bool_decide_eq_false_2 in H by assumption. discriminate H.
Qed.

(** * Instances *)

(** A matcher for the instances: the page url is one of the patterns. *)
Definition exactMatch (pageUrl : jstring) (patterns : list jstring) : bool :=
  existsb (fun p => bool_decide (p = pageUrl)) patterns.

Definition commonSample : StaticTheme :=
  mkTheme [js "*"] {[ js "neutralBg" := VArr [js "body"] ]}.

Definition siteSample : StaticTheme :=
  mkTheme [js "example.com"] {[ js "neutralBgActive" := VArr [js "header"; js "a"] ]}.

Definition mirrorSample : StaticTheme :=
  mkTheme [js "example.org"; js "example.com"]
          (<[ js "noCommon" := VBool true ]> {[ js "neutralText" := VArr [js "p"] ]}).

Definition sampleCatalogue : list StaticTheme := [commonSample; siteSample; mirrorSample].

Definition sampleConfig : FilterConfig unit := mkConfig 1 true 0%float tt.

Lemma getThemeFor_greatest_candidate_witness :
  Forall (fun t => url t <> []) (drop 1 sampleCatalogue)
  /\ (forall other, drop 1 other = drop 1 sampleCatalogue ->
        getThemeFor exactMatch (js "example.com") other
        = getThemeFor exactMatch (js "example.com") sampleCatalogue)
  /\ exists r, getThemeFor exactMatch (js "example.com") sampleCatalogue = Ok r /\
       match r with
       | None => forall t, t ∈ drop 1 sampleCatalogue ->
                           isCandidate exactMatch (js "example.com") t = false
       | Some x =>
           x ∈ drop 1 sampleCatalogue /\ isCandidate exactMatch (js "example.com") x = true /\
           forall t, t ∈ drop 1 sampleCatalogue ->
                     isCandidate exactMatch (js "example.com") t = true ->
                     primaryLength t <= primaryLength x
       end.
Proof.
  assert (H : Forall (fun t => url t <> []) (drop 1 sampleCatalogue))
    by (repeat constructor; discriminate).
  split; [exact H|].
  exact (getThemeFor_greatest_candidate exactMatch (js "example.com") sampleCatalogue H).
Defined.

Lemma getThemeFor_tie_break_witness :
  exists r,
    getThemeFor exactMatch (js "example.com")
                (commonSample :: [] ++ siteSample :: [] ++ mirrorSample :: []) = Ok (Some r)
    /\ isCandidate exactMatch (js "example.com") r = true
    /\ primaryLength r = primaryLength siteSample
    /\ (exists p q, [] ++ [siteSample] = p ++ r :: q /\
          forall t, t ∈ p -> isCandidate exactMatch (js "example.com") t = true ->
                    primaryLength t < primaryLength siteSample)
    /\ ((forall t, t ∈ [] -> isCandidate exactMatch (js "example.com") t = true ->
                   primaryLength t < primaryLength siteSample) -> r = siteSample).
Proof.
  apply (getThemeFor_tie_break exactMatch (js "example.com")
           commonSample [] siteSample [] mirrorSample []).
  - repeat constructor; discriminate.
  - reflexivity.
  - reflexivity.
  - reflexivity.
  - intros t Ht. inversion Ht.
Defined.

Lemma noCommon_suppresses_common_block_witness :
  exists siteTheme lines,
    getThemeFor exactMatch (js "example.org") (commonSample :: [siteSample; mirrorSample])
    = Ok siteTheme
    /\ stylesheetLines (fun _ => js "0.5") (fun c _ => c) (fun _ => js "font-family: serif")
         exactMatch sampleConfig (js "example.org") (commonSample :: [siteSample; mirrorSample])
       = Ok lines
    /\ siteTheme = Some mirrorSample
    /\ Some (js "/* Common theme */") ∉ lines.
Proof.
  destruct (noCommon_suppresses_common_block (fun _ => js "0.5") (fun c _ => c)
              (fun _ => js "font-family: serif") exactMatch sampleConfig (js "example.org")
              commonSample [siteSample; mirrorSample])
    as (siteTheme & lines & Hsite & Hlines & _ & Hblock & _).
  - apply typedThemeb_typed. vm_compute. reflexivity.
  - repeat constructor; apply typedThemeb_typed; vm_compute; reflexivity.
  - repeat constructor; discriminate.
  - exists siteTheme, lines. split; [exact Hsite|]. split; [exact Hlines|].
    assert (Hs : siteTheme = Some mirrorSample).
    { assert (E : getThemeFor exactMatch (js "example.org")
                    (commonSample :: [siteSample; mirrorSample]) = Ok (Some mirrorSample))
        by (vm_compute; reflexivity).
      rewrite E in Hsite. now injection Hsite as <-. }
    split; [exact Hs|]. subst siteTheme.
    destruct Hblock as (srules & _ & Hnc).
    change (noCommon mirrorSample) with true in Hnc. exact (proj2 Hnc).
Defined.

Definition noCommonBodySample : jstring :=
  Js.join [Js.LF] [js "example.com"; js "NO COMMON"; js "body"].

Lemma body_after_noCommon_throws_witness :
  parseUrlSelectorConfig noCommonBodySample = Err TypeError
  /\ (forall themes, parseUrlSelectorConfig noCommonBodySample <> Ok themes)
  /\ parseUrlSelectorConfig noCommonBodySample <> Err MalformedCatalogue.
Proof.
  apply (body_after_noCommon_throws noCommonBodySample noCommonBodySample
           [js "example.com"] (js "NO COMMON") (js "body") []).
  - vm_compute. constructor.
  - vm_compute. reflexivity.
  - reflexivity.
  - reflexivity.
  - reflexivity.
Defined.

Definition sampleText : jstring :=
  Js.join [Js.LF] [js "*"; js "===="; js "example.com"; js "NEUTRAL BG"; js "body"].

Definition sampleParsed : list StaticTheme :=
  [mkTheme [js "*"] ∅; mkTheme [js "example.com"] {[ js "neutralBg" := VArr [js "body"] ]}].

Lemma parsed_url_lists_witness :
  Forall2 (fun block theme =>
             (forall line, line ∈ blockLines block -> isPropertyName line = true ->
                           toPropertyName line <> js "url") ->
             url theme = urlLines (blockLines block)
             /\ exists rest,
                  blockLines block = url theme ++ rest
                  /\ Forall (fun line => isPropertyName line = false) (url theme)
                  /\ match rest with
                     | header :: _ => isPropertyName header = true
                     | [] => True
                     end)
          (splitBlocks sampleText) sampleParsed
  /\ exists common others more,
       sampleParsed = common :: others /\ url common = js "*" :: more.
Proof.
  apply (parsed_url_lists sampleText sampleParsed).
  vm_compute. reflexivity.
Defined.

(** C1: a text without any ['*'] whose parse raises [TypeError], not
    [MalformedCatalogue]. *)
Lemma no_common_theme_not_MalformedCatalogue :
  ("*"%char ∉ noCommonBodySample)
  /\ map (fun block => urlLines (blockLines block)) (splitBlocks noCommonBodySample)
     = [[js "example.com"]]
  /\ parseUrlSelectorConfig noCommonBodySample = Err TypeError
  /\ parseUrlSelectorConfig noCommonBodySample <> Err MalformedCatalogue.
Proof.
  split.
  { intros H. apply list_elem_of_In in H. vm_compute in H.
    repeat (destruct H as [H|H]; [discriminate H|]). exact H. }
  split; [vm_compute; reflexivity|].
  split; [vm_compute; reflexivity|].
  vm_compute. discriminate.
Qed.

Definition headerFirstSample : jstring :=
  Js.join [Js.LF] [js "*"; js "===="; js "NEUTRAL BG"; js "body"].

Definition urlHeaderSample : jstring :=
  Js.join [Js.LF] [js "*"; js "===="; js "example.com"; js "URL"; js "example.org"].

(** C8: a returned catalogue with a theme whose url list is empty, and
    one with a theme whose url list is not made of the lines before the
    first header of its block. *)
Lemma parsed_url_list_empty :
  (exists themes,
     parseUrlSelectorConfig headerFirstSample = Ok themes
     /\ map url themes = [[js "*"]; []]
     /\ ~ Forall (fun theme => url theme <> []) themes)
  /\ (exists themes,
        parseUrlSelectorConfig urlHeaderSample = Ok themes
        /\ map url themes = [[js "*"]; [js "example.org"]]
        /\ map (fun block => urlLines (blockLines block)) (splitBlocks urlHeaderSample)
           = [[js "*"]; [js "example.com"]]).
Proof.
  split.
  - destruct (parseUrlSelectorConfig headerFirstSample) as [themes|e] eqn:E;
      [|vm_compute in E; discriminate E].
    assert (Hu : match parseUrlSelectorConfig headerFirstSample with
                 | Ok themes => map url themes
                 | Err _ => []
                 end = [[js "*"]; []]) by (vm_compute; reflexivity).
    rewrite E in Hu. exists themes. split; [reflexivity|]. split; [exact Hu|].
    intros Hall. destruct themes as [|t0 [|t1 [|]]]; try discriminate Hu.
    injection Hu as _ Hu1. inversion Hall as [|? ? _ Hall']; subst.
    inversion Hall' as [|? ? Ht1 _]; subst. contradiction.
  - destruct (parseUrlSelectorConfig urlHeaderSample) as [themes|e] eqn:E;
      [|vm_compute in E; discriminate E].
    assert (Hu : match parseUrlSelectorConfig urlHeaderSample with
                 | Ok themes => map url themes
                 | Err _ => []
                 end = [[js "*"]; [js "example.org"]]) by (vm_compute; reflexivity).
    rewrite E in Hu. exists themes. split; [reflexivity|]. split; [exact Hu|].
    vm_compute. reflexivity.
Qed.

(** ** CatalogueCodec: the text of a catalogue read back *)

(** Whether [s] holds two ['='] in a row, which [split(/={2,}/g)] takes
    for a delimiter. *)
Fixpoint hasEqRun (s : jstring) : bool :=
  match s with
  | [] => false
  | c :: s' =>
      (Js.isEq c && match s' with c' :: _ => Js.isEq c' | [] => false end)
      || hasEqRun s'
  end.

Definition hasUnit (c : ascii) (s : jstring) : bool := existsb (Ascii.eqb c) s.

Definition startsWithEq (s : jstring) : bool :=
  match s with c :: _ => Js.isEq c | [] => false end.

Lemma splitEqRuns_nonempty inRun s : Js.splitEqRuns inRun s <> [].
Proof.
  revert inRun; induction s as [|c s IH]; intros inRun; cbn [Js.splitEqRuns].
  - discriminate.
  - destruct (Js.isEq c && inRun); [apply IH|].
    destruct (Js.isEq c && _); [discriminate|].
    destruct (Js.splitEqRuns false s); discriminate.
Qed.

Lemma splitEqRuns_true s :
  startsWithEq s = false -> Js.splitEqRuns true s = Js.splitEqRuns false s.
Proof.
  destruct s as [|c s]; [reflexivity|]. cbn [startsWithEq Js.splitEqRuns].
  intros ->. reflexivity.
Qed.

Lemma splitEqRuns_run n s :
  startsWithEq s = false ->
  Js.splitEqRuns true (repeat "="%char n ++ s) = Js.splitEqRuns false s.
Proof.
  intros Hs. induction n as [|n IH]; cbn [repeat app].
  - now apply splitEqRuns_true.
  - cbn [Js.splitEqRuns]. change (Js.isEq "="%char) with true. cbn [andb]. exact IH.
Qed.

Lemma splitEqRuns_no_run s : hasEqRun s = false -> Js.splitEqRuns false s = [s].
Proof.
  induction s as [|c s IH]; [reflexivity|]. cbn [hasEqRun Js.splitEqRuns].
  intros H. apply orb_false_iff in H as [Hc Hs].
  rewrite andb_false_r. rewrite Hc. now rewrite IH.
Qed.

(** A separator that follows a text without delimiter ends a block. *)
Lemma splitEqRuns_separator u n v :
  hasEqRun (u ++ ["="%char]) = false ->
  startsWithEq v = false ->
  Js.splitEqRuns false (u ++ repeat "="%char (2 + n) ++ v)
  = u :: Js.splitEqRuns false v.
Proof.
  intros Hu Hv. induction u as [|c u IH].
  - cbn [app repeat Nat.add Js.splitEqRuns]. change (Js.isEq "="%char) with true.
    cbn [andb]. cbn [Js.splitEqRuns]. change (Js.isEq "="%char) with true.
    cbn [andb]. now rewrite splitEqRuns_run.
  - cbn [app hasEqRun] in Hu. apply orb_false_iff in Hu as [Hc Hu].
    cbn [app Js.splitEqRuns]. rewrite andb_false_r.
    assert (E : Js.isEq c && match u ++ repeat "="%char (2 + n) ++ v with
                             | [] => false
                             | c' :: _ => Js.isEq c'
                             end = false).
    { destruct u; exact Hc. }
    rewrite E. now rewrite IH.
Qed.

Lemma hasEqRun_app_LF x y :
  hasEqRun (x ++ Js.LF :: y) = hasEqRun x || hasEqRun y.
Proof.
  induction x as [|c x IH]; [reflexivity|]. cbn [app hasEqRun]. rewrite IH.
  rewrite orb_assoc. f_equal. f_equal.
  destruct x as [|c' x]; cbn [app]; [|reflexivity].
  change (Js.isEq Js.LF) with false. now rewrite andb_false_r.
Qed.

Lemma hasEqRun_snoc_eq x :
  hasEqRun (x ++ [Js.LF] ++ ["="%char]) = hasEqRun x.
Proof.
  cbn [app]. rewrite hasEqRun_app_LF. cbn. apply orb_false_r.
Qed.

(** Joining and splitting lines. *)
Lemma split_nonempty sep s : Js.split sep s <> [].
Proof.
  destruct s as [|c s]; cbn [Js.split]; [discriminate|].
  destruct (Ascii.eqb c sep); [discriminate|].
  destruct (Js.split sep s); discriminate.
Qed.

Lemma split_app sep x y :
  Js.split sep (x ++ sep :: y) = Js.split sep x ++ Js.split sep y.
Proof.
  induction x as [|c x IH]; cbn [app Js.split].
  - now rewrite Ascii.eqb_refl.
  - destruct (Ascii.eqb c sep); rewrite IH; [reflexivity|].
    pose proof (split_nonempty sep x) as Hne.
    destruct (Js.split sep x); [contradiction | reflexivity].
Qed.

Lemma split_no_sep sep s : hasUnit sep s = false -> Js.split sep s = [s].
Proof.
  induction s as [|c s IH]; [reflexivity|]. cbn [hasUnit existsb Js.split].
  intros H. apply orb_false_iff in H as [Hc Hs].
  rewrite Ascii.eqb_sym, Hc. now rewrite (IH Hs).
Qed.

Lemma join_cons sep x y l :
  Js.join sep (x :: y :: l) = x ++ sep ++ Js.join sep (y :: l).
Proof. reflexivity. Qed.

Lemma join_app sep l k :
  l <> [] -> k <> [] -> Js.join sep (l ++ k) = Js.join sep l ++ sep ++ Js.join sep k.
Proof.
  intros Hl Hk. induction l as [|x l IH]; [contradiction|].
  destruct l as [|y l].
  - destruct k; [contradiction | reflexivity].
  - cbn [app] in *. rewrite !join_cons. rewrite IH by discriminate.
    now rewrite <- !app_assoc.
Qed.

Lemma blockLines_app x y :
  blockLines (x ++ Js.LF :: y) = blockLines x ++ blockLines y.
Proof.
  unfold blockLines. now rewrite split_app, map_app, List.filter_app.
Qed.

Lemma blockLines_nil : blockLines [] = [].
Proof. reflexivity. Qed.

Lemma blockLines_LFs n s : blockLines (repeat Js.LF n ++ s) = blockLines s.
Proof.
  induction n as [|n IH]; [reflexivity|]. cbn [repeat app].
  change (blockLines ([] ++ Js.LF :: repeat Js.LF n ++ s) = blockLines s).
  now rewrite blockLines_app, blockLines_nil, IH.
Qed.

(** A line that the text stores as it is: trimmed, on one line, without
    carriage return and without delimiter. *)
Definition textLine (s : jstring) : bool :=
  bool_decide (Js.trim s = s)
  && negb (hasUnit Js.LF s) && negb (hasUnit Js.CR s) && negb (hasEqRun s).

(** A url pattern or a selector that the text format can hold: a stored
    line that is neither empty nor a header. *)
Definition cleanLine (s : jstring) : bool :=
  nonEmpty s && textLine s && negb (isPropertyName s).

Lemma textLine_spec s :
  textLine s = true ->
  Js.trim s = s /\ hasUnit Js.LF s = false /\ hasUnit Js.CR s = false /\ hasEqRun s = false.
Proof.
  unfold textLine. intros H.
  apply andb_true_iff in H as [H H4]. apply andb_true_iff in H as [H H3].
  apply andb_true_iff in H as [H1 H2]. apply bool_decide_eq_true in H1.
  apply negb_true_iff in H2, H3, H4. auto.
Qed.

Lemma cleanLine_spec s :
  cleanLine s = true -> nonEmpty s = true /\ textLine s = true /\ isPropertyName s = false.
Proof.
  unfold cleanLine. intros H.
  apply andb_true_iff in H as [H H3]. apply andb_true_iff in H as [H1 H2].
  apply negb_true_iff in H3. auto.
Qed.

Lemma blockLines_textLine s :
  textLine s = true -> blockLines s = List.filter nonEmpty [s].
Proof.
  intros H. apply textLine_spec in H as (Ht & Hlf & _).
  unfold blockLines. rewrite split_no_sep by assumption. cbn [map]. now rewrite Ht.
Qed.

Lemma blockLines_join lines :
  Forall (fun s => textLine s = true) lines ->
  blockLines (Js.join [Js.LF] lines) = List.filter nonEmpty lines.
Proof.
  induction 1 as [|x l Hx Hl IH]; [reflexivity|].
  destruct l as [|y l].
  - cbn [Js.join]. now apply blockLines_textLine.
  - rewrite join_cons. cbn [app]. rewrite blockLines_app, IH.
    rewrite (blockLines_textLine x Hx). cbn [List.filter].
    destruct (nonEmpty x); reflexivity.
Qed.

Lemma hasEqRun_join lines :
  Forall (fun s => textLine s = true) lines -> hasEqRun (Js.join [Js.LF] lines) = false.
Proof.
  induction 1 as [|x l Hx Hl IH]; [reflexivity|].
  apply textLine_spec in Hx as (_ & _ & _ & Hx).
  destruct l as [|y l]; [exact Hx|].
  rewrite join_cons. cbn [app]. rewrite hasEqRun_app_LF, Hx, IH. reflexivity.
Qed.

Lemma hasEqRun_LFs n s : hasEqRun (repeat Js.LF n ++ s) = hasEqRun s.
Proof.
  induction n as [|n IH]; [reflexivity|]. cbn [repeat app].
  change (hasEqRun ([] ++ Js.LF :: repeat Js.LF n ++ s) = hasEqRun s).
  now rewrite hasEqRun_app_LF, IH.
Qed.

Lemma removeCR_id s : hasUnit Js.CR s = false -> Js.removeCR s = s.
Proof.
  unfold Js.removeCR. induction s as [|c s IH]; [reflexivity|].
  cbn [hasUnit existsb List.filter]. intros H. apply orb_false_iff in H as [Hc Hs].
  rewrite Ascii.eqb_sym, Hc. cbn [negb]. now rewrite IH.
Qed.

Lemma hasUnit_app c x y : hasUnit c (x ++ y) = hasUnit c x || hasUnit c y.
Proof. apply existsb_app. Qed.

Lemma hasUnit_join c (lines : list jstring) :
  Ascii.eqb c Js.LF = false ->
  Forall (fun s => hasUnit c s = false) lines ->
  hasUnit c (Js.join [Js.LF] lines) = false.
Proof.
  intros Hc. induction 1 as [|x l Hx Hl IH]; [reflexivity|].
  destruct l as [|y l]; [exact Hx|].
  rewrite join_cons, !hasUnit_app, Hx, IH. cbn. now rewrite Hc.
Qed.

(** The lines of one theme and of a whole catalogue. *)
Definition recordLines (theme : StaticTheme) : list jstring :=
  url theme ++ flat_map (propLines theme) staticThemeProps.

Fixpoint catalogueLines (themes : list StaticTheme) : list jstring :=
  match themes with
  | [] => []
  | theme :: rest =>
      recordLines theme
      ++ match rest with
         | [] => []
         | _ :: _ => [[]; separator; []] ++ catalogueLines rest
         end
  end.

Lemma imap_themeLines k themes :
  concat (imap (fun i => themeLines (k + length themes) (k + i)) themes)
  = catalogueLines themes.
Proof.
  revert k; induction themes as [|theme rest IH]; intros k; [reflexivity|].
  rewrite imap_cons. cbn [concat catalogueLines length].
  assert (Hrest : concat (imap ((fun i => themeLines (k + S (length rest)) (k + i)) ∘ S) rest)
                  = catalogueLines rest).
  { rewrite <- (IH (S k)). f_equal. apply imap_ext. intros i t _. cbn.
    f_equal; lia. }
  rewrite Hrest. unfold themeLines, recordLines. rewrite <- !app_assoc.
  do 2 f_equal.
  destruct rest as [|t rest].
  - cbn [length]. replace (k + 0 <? k + 1 - 1)%nat with false; [reflexivity|].
    symmetry. apply Nat.ltb_ge. lia.
  - cbn [length]. replace (k + 0 <? k + S (S (length rest)) - 1)%nat with true; [reflexivity|].
    symmetry. apply Nat.ltb_lt. lia.
Qed.

Lemma formatUrlSelectorConfig_sorted localeCompare themes :
  sortThemes localeCompare themes = Ok themes ->
  formatUrlSelectorConfig localeCompare themes
  = Ok (Js.join [Js.LF] (catalogueLines themes ++ [[]])).
Proof.
  intros H. unfold formatUrlSelectorConfig. rewrite H. cbn [mbind result_bind].
  now rewrite <- (imap_themeLines 0 themes).
Qed.

(** What the header of a declared property must be for the text to be
    read back: a header line, stored as it is, whose property name is
    the property. *)
Definition headerOk (prop : jstring) : bool :=
  let header := camelCaseToUpperCase prop in
  isPropertyName header
  && bool_decide (toPropertyName header = prop)
  && textLine header
  && nonEmpty header
  && negb (bool_decide (prop = js "url")).

Lemma staticThemeProps_headerOk : forallb headerOk staticThemeProps = true.
Proof. vm_compute. reflexivity. Qed.

Lemma staticThemeProps_NoDup : NoDup staticThemeProps.
Proof. apply (bool_decide_unpack _). vm_compute. exact I. Qed.

Lemma headerOk_spec prop :
  prop ∈ staticThemeProps ->
  isPropertyName (camelCaseToUpperCase prop) = true
  /\ toPropertyName (camelCaseToUpperCase prop) = prop
  /\ textLine (camelCaseToUpperCase prop) = true
  /\ nonEmpty (camelCaseToUpperCase prop) = true
  /\ prop <> js "url".
Proof.
  intros Hin. pose proof staticThemeProps_headerOk as H.
  rewrite forallb_forall in H. apply list_elem_of_In in Hin. specialize (H _ Hin).
  unfold headerOk in H.
  apply andb_true_iff in H as [H H5]. apply andb_true_iff in H as [H H4].
  apply andb_true_iff in H as [H H3]. apply andb_true_iff in H as [H1 H2].
  apply bool_decide_eq_true in H2. apply negb_true_iff in H5.
  apply bool_decide_eq_false in H5. auto.
Qed.

Definition memb (k : jstring) (l : list jstring) : bool :=
  existsb (fun p => bool_decide (p = k)) l.

Lemma memb_elem_of k l : memb k l = true <-> k ∈ l.
Proof.
  unfold memb. rewrite existsb_exists. split.
  - intros (p & Hin & Hp). apply bool_decide_eq_true in Hp. subst p.
    now apply list_elem_of_In.
  - intros Hin. exists k. split; [now apply list_elem_of_In|].
    now apply bool_decide_eq_true.
Qed.

(** The property bag of a theme holds declared properties only, a
    boolean under [noCommon] and arrays of selectors that satisfy
    [selectorOk] under the others. *)
Definition propsOk (selectorOk : jstring -> bool) (theme : StaticTheme) : bool :=
  forallb (fun kv : jstring * jsvalue =>
             memb kv.1 staticThemeProps
             && match kv.2 with
                | VBool _ => bool_decide (kv.1 = js "noCommon")
                | VArr l => negb (bool_decide (kv.1 = js "noCommon")) && forallb selectorOk l
                end)
          (map_to_list (props theme)).

(** A selector as the round-trip property of the specification has it:
    not blank and not a header. *)
Definition nonBlankSelector (s : jstring) : bool :=
  nonEmpty (Js.trim s) && negb (isPropertyName s).

(** A theme as the round-trip property of the specification has it. *)
Definition declaredTheme (theme : StaticTheme) : bool :=
  (0 <? length (url theme))%nat && propsOk nonBlankSelector theme.

(** A theme that the text format can hold: moreover every url pattern
    and every selector is a clean line. *)
Definition storableTheme (theme : StaticTheme) : bool :=
  (0 <? length (url theme))%nat && forallb cleanLine (url theme) && propsOk cleanLine theme.

(** Two themes with the same url list, the same [noCommon] flag and the
    same selectors under every property, an absent list and an empty one
    being the same. *)
Definition sameRecord (a b : StaticTheme) : Prop :=
  url a = url b
  /\ noCommon a = noCommon b
  /\ forall prop, prop <> js "noCommon" ->
                  arrayOf (getProp a prop) = arrayOf (getProp b prop).

Lemma propsOk_lookup selectorOk theme k v :
  propsOk selectorOk theme = true ->
  props theme !! k = Some v ->
  k ∈ staticThemeProps
  /\ match v with
     | VBool _ => k = js "noCommon"
     | VArr l => k <> js "noCommon" /\ Forall (fun s => selectorOk s = true) l
     end.
Proof.
  unfold propsOk. intros H Hk. rewrite forallb_forall in H.
  apply elem_of_map_to_list in Hk. apply list_elem_of_In in Hk.
  specialize (H _ Hk). cbn in H. apply andb_true_iff in H as [H1 H2].
  split; [now apply memb_elem_of|].
  destruct v as [b|l].
  - now apply bool_decide_eq_true in H2.
  - apply andb_true_iff in H2 as [H2 H3]. apply negb_true_iff in H2.
    apply bool_decide_eq_false in H2. split; [assumption|].
    apply Forall_forall. intros s Hs. rewrite forallb_forall in H3.
    apply H3. now apply list_elem_of_In.
Qed.

(** The body of the section that the formatter writes for a property,
    if it writes one. *)
Definition sectionOf (theme : StaticTheme) (prop : jstring) : option (list jstring) :=
  if bool_decide (prop = js "noCommon") then
    if noCommon theme then Some [] else None
  else
    match arrayOf (getProp theme prop) with
    | [] => None
    | s :: l => Some (s :: l)
    end.

Lemma getProp_props theme prop : prop <> js "url" -> getProp theme prop = props theme !! prop.
Proof.
  intros H. unfold getProp. now rewrite bool_decide_eq_false_2 by assumption.
Qed.

Lemma propLines_sectionOf selectorOk theme prop :
  propsOk selectorOk theme = true ->
  prop <> js "url" ->
  propLines theme prop
  = match sectionOf theme prop with
    | Some body => [] :: camelCaseToUpperCase prop :: body
    | None => []
    end.
Proof.
  intros Hok Hurl. unfold propLines, sectionOf, noCommon.
  rewrite getProp_props by assumption.
  destruct (bool_decide (prop = js "noCommon")) eqn:Hnc.
  - apply bool_decide_eq_true in Hnc. subst prop.
    destruct (props theme !! js "noCommon") as [[b|l]|] eqn:Hlk.
    + cbn. destruct b; reflexivity.
    + apply (propsOk_lookup _ _ _ _ Hok) in Hlk as [_ [Hk _]]. contradiction.
    + reflexivity.
  - cbn [andb orb].
    destruct (props theme !! prop) as [[b|l]|] eqn:Hlk.
    + apply (propsOk_lookup _ _ _ _ Hok) in Hlk as [_ Hk].
      apply bool_decide_eq_false in Hnc. contradiction.
    + cbn. destruct l; reflexivity.
    + reflexivity.
Qed.

Lemma sectionOf_body theme prop body :
  propsOk cleanLine theme = true ->
  prop <> js "url" ->
  sectionOf theme prop = Some body ->
  Forall (fun s => cleanLine s = true) body
  /\ (prop = js "noCommon" -> body = [])
  /\ (prop <> js "noCommon" -> getProp theme prop = Some (VArr body) /\ body <> []).
Proof.
  intros Hok Hurl. unfold sectionOf. rewrite getProp_props by assumption.
  destruct (bool_decide (prop = js "noCommon")) eqn:Hnc.
  - destruct (noCommon theme); [|discriminate]. intros [= <-].
    apply bool_decide_eq_true in Hnc.
    split; [constructor|]. split; [reflexivity | contradiction].
  - apply bool_decide_eq_false in Hnc.
    destruct (props theme !! prop) as [[b|l]|] eqn:Hlk; cbn [arrayOf]; try discriminate.
    destruct l as [|s l]; [discriminate|]. intros [= <-].
    apply (propsOk_lookup _ _ _ _ Hok) in Hlk as [_ [_ Hl]].
    split; [exact Hl|]. split; [contradiction|]. intros _. split; [reflexivity | discriminate].
Qed.

(** The lines of a section that are left when the empty ones are
    dropped. *)
Definition sectionLines (theme : StaticTheme) (prop : jstring) : list jstring :=
  match sectionOf theme prop with
  | Some body => camelCaseToUpperCase prop :: body
  | None => []
  end.

Lemma cleanLines_textLine (l : list jstring) :
  Forall (fun s => cleanLine s = true) l -> Forall (fun s => textLine s = true) l.
Proof.
  intros H. eapply Forall_impl; [exact H|]. intros s Hs. now apply cleanLine_spec in Hs.
Qed.

Lemma cleanLines_filter (l : list jstring) :
  Forall (fun s => cleanLine s = true) l -> List.filter nonEmpty l = l.
Proof.
  induction 1 as [|s l Hs Hl IH]; [reflexivity|]. cbn [List.filter].
  apply cleanLine_spec in Hs as (-> & _). now rewrite IH.
Qed.

Lemma propLines_lines theme (props : list jstring) :
  propsOk cleanLine theme = true ->
  Forall (fun p => p ∈ staticThemeProps) props ->
  Forall (fun s => textLine s = true) (flat_map (propLines theme) props)
  /\ List.filter nonEmpty (flat_map (propLines theme) props)
     = flat_map (sectionLines theme) props.
Proof.
  intros Hok. induction 1 as [|p ps Hp Hps (IH1 & IH2)]; [split; [constructor | reflexivity]|].
  destruct (headerOk_spec p Hp) as (_ & _ & Hh & Hne & Hurl).
  cbn [flat_map]. rewrite (propLines_sectionOf cleanLine) by assumption.
  unfold sectionLines at 1.
  destruct (sectionOf theme p) as [body|] eqn:Hs; [|now split].
  apply sectionOf_body in Hs as (Hbody & _); [|assumption|assumption].
  split.
  - apply Forall_app. split; [|assumption].
    constructor; [reflexivity|]. constructor; [assumption|].
    now apply cleanLines_textLine.
  - cbn [app List.filter nonEmpty]. rewrite Hne. rewrite List.filter_app.
    rewrite cleanLines_filter by assumption. cbn [app]. now rewrite IH2.
Qed.

Lemma storableTheme_spec theme :
  storableTheme theme = true ->
  url theme <> []
  /\ Forall (fun s => cleanLine s = true) (url theme)
  /\ propsOk cleanLine theme = true.
Proof.
  unfold storableTheme. intros H.
  apply andb_true_iff in H as [H H3]. apply andb_true_iff in H as [H1 H2].
  apply Nat.ltb_lt in H1. split; [|split; [|assumption]].
  - destruct (url theme); [cbn in H1; lia | discriminate].
  - apply Forall_forall. intros s Hs. rewrite forallb_forall in H2.
    apply H2. now apply list_elem_of_In.
Qed.

Lemma staticThemeProps_Forall : Forall (fun p => p ∈ staticThemeProps) staticThemeProps.
Proof. apply Forall_forall. auto. Qed.

Lemma recordLines_lines theme :
  storableTheme theme = true ->
  Forall (fun s => textLine s = true) (recordLines theme)
  /\ List.filter nonEmpty (recordLines theme)
     = url theme ++ flat_map (sectionLines theme) staticThemeProps.
Proof.
  intros H. apply storableTheme_spec in H as (_ & Hurl & Hok).
  destruct (propLines_lines theme staticThemeProps Hok staticThemeProps_Forall) as (H1 & H2).
  unfold recordLines. split.
  - apply Forall_app. split; [now apply cleanLines_textLine | assumption].
  - rewrite List.filter_app, H2. now rewrite cleanLines_filter.
Qed.

(** The blocks of the text of a catalogue, one for every theme, hold the
    lines of the theme. *)
Lemma splitEqRuns_catalogue themes k :
  themes <> [] ->
  Forall (fun theme => storableTheme theme = true) themes ->
  Forall2 (fun block theme =>
             blockLines block = url theme ++ flat_map (sectionLines theme) staticThemeProps)
          (Js.splitEqRuns false
             (repeat Js.LF k ++ Js.join [Js.LF] (catalogueLines themes ++ [[]])))
          themes.
Proof.
  intros Hne Hall. revert k.
  induction Hall as [|theme rest Htheme Hrest IH]; intros k; [contradiction|].
  destruct (recordLines_lines theme Htheme) as (Htext & Hfilter).
  assert (Htext' : Forall (fun s => textLine s = true) (recordLines theme ++ [[]])).
  { apply Forall_app. split; [assumption|]. constructor; [reflexivity | constructor]. }
  assert (Hblock : blockLines (Js.join [Js.LF] (recordLines theme ++ [[]]))
                   = url theme ++ flat_map (sectionLines theme) staticThemeProps).
  { rewrite blockLines_join by assumption. rewrite List.filter_app. cbn [List.filter nonEmpty].
    now rewrite app_nil_r. }
  destruct rest as [|next rest].
  - cbn [catalogueLines]. rewrite app_nil_r.
    rewrite splitEqRuns_no_run.
    + constructor; [|constructor]. now rewrite blockLines_LFs.
    + rewrite hasEqRun_LFs. now apply hasEqRun_join.
  - change (catalogueLines (theme :: next :: rest))
      with (recordLines theme ++ [[]; separator; []] ++ catalogueLines (next :: rest)).
    set (after := catalogueLines (next :: rest)) in *.
    assert (Hafter : after ++ [[]] <> []) by (destruct after; discriminate).
    assert (E : Js.join [Js.LF] ((recordLines theme ++ [[]; separator; []] ++ after) ++ [[]])
                = (Js.join [Js.LF] (recordLines theme ++ [[]]) ++ [Js.LF])
                  ++ repeat "="%char (2 + 30)
                  ++ (repeat Js.LF 2 ++ Js.join [Js.LF] (after ++ [[]]))).
    { replace ((recordLines theme ++ [[]; separator; []] ++ after) ++ [[]])
        with ((recordLines theme ++ [[]]) ++ [separator] ++ [[]] ++ (after ++ [[]]))
        by (rewrite <- !app_assoc; reflexivity).
      rewrite (join_app [Js.LF] (recordLines theme ++ [[]])
                 ([separator] ++ [[]] ++ (after ++ [[]])));
        [|intros H; destruct (recordLines theme); discriminate H | discriminate].
      rewrite (join_app [Js.LF] [separator] ([[]] ++ (after ++ [[]])));
        [|discriminate | discriminate].
      rewrite (join_app [Js.LF] [[]] (after ++ [[]])); [|discriminate | assumption].
      cbn [Js.join]. rewrite <- !app_assoc. reflexivity. }
    replace (repeat Js.LF k
             ++ Js.join [Js.LF] ((recordLines theme ++ [[]; separator; []] ++ after) ++ [[]]))
      with ((repeat Js.LF k ++ Js.join [Js.LF] (recordLines theme ++ [[]]) ++ [Js.LF])
            ++ repeat "="%char (2 + 30)
            ++ (repeat Js.LF 2 ++ Js.join [Js.LF] (after ++ [[]])))
      by (rewrite E, <- !app_assoc; reflexivity).
    rewrite splitEqRuns_separator.
    + constructor; [|apply IH; discriminate].
      rewrite blockLines_LFs.
      change (Js.join [Js.LF] (recordLines theme ++ [[]]) ++ [Js.LF])
        with (Js.join [Js.LF] (recordLines theme ++ [[]]) ++ Js.LF :: []).
      now rewrite blockLines_app, blockLines_nil, app_nil_r.
    + rewrite <- !app_assoc. rewrite hasEqRun_LFs.
      rewrite hasEqRun_snoc_eq. now apply hasEqRun_join.
    + reflexivity.
Qed.

(** Reading the lines of a theme back. *)
Lemma urlLines_app patterns rest :
  Forall (fun s => isPropertyName s = false) patterns ->
  match rest with header :: _ => isPropertyName header = true | [] => True end ->
  urlLines (patterns ++ rest) = patterns.
Proof.
  intros Hp Hrest. induction Hp as [|s l Hs Hl IH]; cbn [app].
  - destruct rest as [|header rest]; [reflexivity|].
    rewrite urlLines_cons. now rewrite Hrest.
  - rewrite urlLines_cons, Hs. now rewrite IH.
Qed.

Lemma setProp_setProp raw p v v' : setProp (setProp raw p v) p v' = setProp raw p v'.
Proof.
  unfold setProp. destruct (bool_decide (p = js "url")); cbn [url props]; [reflexivity|].
  now rewrite insert_insert_eq.
Qed.

Lemma parseLine_push raw p acc line :
  isPropertyName line = false ->
  parseLine (setProp raw p (VArr acc), Some p) line
  = Ok (setProp raw p (VArr (acc ++ [line])), Some p).
Proof.
  intros Hl. unfold parseLine. rewrite Hl, getProp_setProp_arr.
  now rewrite setProp_setProp.
Qed.

Lemma foldM_parseLine_body body raw p acc rest :
  Forall (fun s => isPropertyName s = false) body ->
  foldM parseLine (setProp raw p (VArr acc), Some p) (body ++ rest)
  = foldM parseLine (setProp raw p (VArr (acc ++ body)), Some p) rest.
Proof.
  intros Hb. revert acc. induction Hb as [|line body Hl Hb IH]; intros acc.
  - now rewrite app_nil_r.
  - cbn [app foldM]. rewrite parseLine_push by assumption. cbn [mbind result_bind].
    rewrite IH. now rewrite <- app_assoc.
Qed.

Definition sectionValue (prop : jstring) (body : list jstring) : jsvalue :=
  if bool_decide (prop = js "noCommon") then VBool true else VArr body.

(** What reading the section of a property does to the theme that is
    being built. *)
Definition applySection (theme raw : StaticTheme) (prop : jstring) : StaticTheme :=
  match sectionOf theme prop with
  | Some body => setProp raw prop (sectionValue prop body)
  | None => raw
  end.

(** The theme that is read back from the text of a theme. *)
Definition parsedTheme (theme : StaticTheme) : StaticTheme :=
  foldl (applySection theme) (mkTheme (url theme) ∅) staticThemeProps.

Lemma cleanLines_not_headers (l : list jstring) :
  Forall (fun s => cleanLine s = true) l -> Forall (fun s => isPropertyName s = false) l.
Proof.
  intros H. eapply Forall_impl; [exact H|]. intros s Hs. now apply cleanLine_spec in Hs.
Qed.

Lemma parseLine_header raw prop line :
  isPropertyName line = true ->
  parseLine (raw, prop) line
  = Ok (setProp raw (toPropertyName line)
          (if bool_decide (toPropertyName line = js "noCommon") then VBool true else VArr []),
        Some (toPropertyName line)).
Proof.
  intros Hl. unfold parseLine. rewrite Hl.
  now destruct (bool_decide (toPropertyName line = js "noCommon")).
Qed.

Lemma foldM_parseLine_section theme raw prop p rest :
  propsOk cleanLine theme = true ->
  p ∈ staticThemeProps ->
  exists prop',
    foldM parseLine (raw, prop) (sectionLines theme p ++ rest)
    = foldM parseLine (applySection theme raw p, prop') rest.
Proof.
  intros Hok Hp. destruct (headerOk_spec p Hp) as (Hh & Hname & _ & _ & Hurl).
  unfold sectionLines, applySection, sectionValue.
  destruct (sectionOf theme p) as [body|] eqn:Hs; [|now exists prop].
  apply sectionOf_body in Hs as (Hbody & Hnc & _); [|assumption|assumption].
  exists (Some p). cbn [app foldM]. rewrite parseLine_header by assumption.
  rewrite Hname.
  destruct (bool_decide (p = js "noCommon")) eqn:E; cbn [mbind result_bind].
  - apply bool_decide_eq_true in E. now rewrite (Hnc E).
  - rewrite foldM_parseLine_body by now apply cleanLines_not_headers.
    reflexivity.
Qed.

Lemma foldM_parseLine_sections theme (ps : list jstring) raw prop :
  propsOk cleanLine theme = true ->
  Forall (fun p => p ∈ staticThemeProps) ps ->
  exists prop',
    foldM parseLine (raw, prop) (flat_map (sectionLines theme) ps)
    = Ok (foldl (applySection theme) raw ps, prop').
Proof.
  intros Hok Hps. revert raw prop.
  induction Hps as [|p ps Hp Hps IH]; intros raw prop.
  - exists prop. reflexivity.
  - cbn [flat_map foldl].
    destruct (foldM_parseLine_section theme raw prop p (flat_map (sectionLines theme) ps)
                Hok Hp) as (prop1 & ->).
    apply IH.
Qed.

Lemma sections_start theme (ps : list jstring) :
  Forall (fun p => p ∈ staticThemeProps) ps ->
  match flat_map (sectionLines theme) ps with
  | header :: _ => isPropertyName header = true
  | [] => True
  end.
Proof.
  induction 1 as [|p ps Hp Hps IH]; [exact I|]. cbn [flat_map].
  unfold sectionLines at 1. destruct (sectionOf theme p); [|exact IH].
  cbn [app]. now apply headerOk_spec.
Qed.

Lemma parseBlock_theme theme block :
  storableTheme theme = true ->
  blockLines block = url theme ++ flat_map (sectionLines theme) staticThemeProps ->
  parseBlock block = Ok (parsedTheme theme).
Proof.
  intros Hst Hlines. apply storableTheme_spec in Hst as (_ & Hurl & Hok).
  unfold parseBlock. rewrite Hlines.
  rewrite urlLines_app;
    [|now apply cleanLines_not_headers | apply sections_start, staticThemeProps_Forall].
  rewrite drop_app_length.
  destruct (foldM_parseLine_sections theme staticThemeProps (mkTheme (url theme) ∅) None
              Hok staticThemeProps_Forall) as (prop' & ->).
  cbn [mbind result_bind fst]. unfold parsedTheme. reflexivity.
Qed.

Lemma props_setProp raw p v k :
  p <> js "url" ->
  props (setProp raw p v) !! k = if bool_decide (p = k) then Some v else props raw !! k.
Proof.
  intros Hp. unfold setProp. rewrite bool_decide_eq_false_2 by assumption. cbn [props].
  destruct (bool_decide (p = k)) eqn:E.
  - apply bool_decide_eq_true in E. subst k. apply lookup_insert_eq.
  - apply bool_decide_eq_false in E. now apply lookup_insert_ne.
Qed.

Lemma props_applySection theme raw p k :
  p <> js "url" ->
  props (applySection theme raw p) !! k
  = if bool_decide (p = k) then
      match sectionOf theme p with
      | Some body => Some (sectionValue p body)
      | None => props raw !! k
      end
    else props raw !! k.
Proof.
  intros Hp. unfold applySection.
  destruct (sectionOf theme p) as [body|].
  - now apply props_setProp.
  - now destruct (bool_decide (p = k)).
Qed.

Lemma url_applySection theme raw p : p <> js "url" -> url (applySection theme raw p) = url raw.
Proof.
  intros Hp. unfold applySection. destruct (sectionOf theme p); [|reflexivity].
  now apply url_setProp_ne.
Qed.

Lemma foldl_applySection theme (ps : list jstring) raw k :
  NoDup ps ->
  Forall (fun p => p <> js "url") ps ->
  url (foldl (applySection theme) raw ps) = url raw
  /\ props (foldl (applySection theme) raw ps) !! k
     = if memb k ps then
         match sectionOf theme k with
         | Some body => Some (sectionValue k body)
         | None => props raw !! k
         end
       else props raw !! k.
Proof.
  intros Hnd Hurl. revert raw.
  induction Hurl as [|p ps Hp Hps IH]; intros raw; [split; reflexivity|].
  apply NoDup_cons in Hnd as [Hnotin Hnd].
  destruct (IH Hnd (applySection theme raw p)) as (IHu & IHp).
  cbn [foldl]. split; [now rewrite IHu, url_applySection|].
  rewrite IHp, props_applySection by assumption.
  unfold memb at 2. cbn [existsb]. fold (memb k ps).
  destruct (bool_decide (p = k)) eqn:E; cbn [orb].
  - apply bool_decide_eq_true in E. subst k.
    destruct (memb p ps) eqn:Hm.
    + apply memb_elem_of in Hm. contradiction.
    + reflexivity.
  - destruct (memb k ps); [|reflexivity].
    now destruct (sectionOf theme k).
Qed.

Lemma staticThemeProps_not_url : Forall (fun p => p <> js "url") staticThemeProps.
Proof.
  apply Forall_forall. intros p Hp. now apply headerOk_spec.
Qed.

Lemma parsedTheme_props theme k :
  props (parsedTheme theme) !! k
  = if memb k staticThemeProps then sectionValue k <$> sectionOf theme k else None.
Proof.
  unfold parsedTheme.
  destruct (foldl_applySection theme staticThemeProps (mkTheme (url theme) ∅) k
              staticThemeProps_NoDup staticThemeProps_not_url) as (_ & ->).
  cbn [props]. rewrite lookup_empty.
  destruct (memb k staticThemeProps); [|reflexivity].
  now destruct (sectionOf theme k).
Qed.

Lemma parsedTheme_url theme : url (parsedTheme theme) = url theme.
Proof.
  unfold parsedTheme.
  now destruct (foldl_applySection theme staticThemeProps (mkTheme (url theme) ∅) []
                  staticThemeProps_NoDup staticThemeProps_not_url) as (-> & _).
Qed.

(** The theme that is read back is the theme that was written. *)
Lemma parsedTheme_sameRecord theme :
  storableTheme theme = true -> sameRecord theme (parsedTheme theme).
Proof.
  intros Hst. apply storableTheme_spec in Hst as (_ & _ & Hok).
  split; [now rewrite parsedTheme_url|]. split.
  - unfold noCommon at 2. rewrite parsedTheme_props.
    change (memb (js "noCommon") staticThemeProps) with true. cbn match.
    unfold sectionOf, sectionValue. rewrite bool_decide_eq_true_2 by reflexivity.
    now destruct (noCommon theme).
  - intros prop Hnc. unfold getProp. rewrite parsedTheme_url.
    destruct (bool_decide (prop = js "url")) eqn:Hurl; [reflexivity|].
    apply bool_decide_eq_false in Hurl.
    rewrite parsedTheme_props.
    destruct (memb prop staticThemeProps) eqn:Hm.
    + unfold sectionOf, sectionValue. rewrite bool_decide_eq_false_2 by assumption.
      rewrite getProp_props by assumption.
      now destruct (arrayOf (props theme !! prop)).
    + destruct (props theme !! prop) as [v|] eqn:Hlk; [|reflexivity].
      apply (propsOk_lookup _ _ _ _ Hok) in Hlk as [Hin _].
      apply memb_elem_of in Hin. congruence.
Qed.

Lemma mapM_Forall2 {A B C} (f : A -> result B) (g : C -> B) (l : list A) (k : list C) :
  Forall2 (fun x y => f x = Ok (g y)) l k -> mapM f l = Ok (map g k).
Proof.
  induction 1 as [|x y l k Hxy _ IH]; [reflexivity|].
  cbn [mapM map]. rewrite Hxy. cbn [mbind result_bind]. rewrite IH. reflexivity.
Qed.

Lemma Forall2_and_r {A B} (P : A -> B -> Prop) (Q : B -> Prop) l k :
  Forall2 P l k -> Forall Q k -> Forall2 (fun x y => P x y /\ Q y) l k.
Proof.
  induction 1 as [|x y l k Hxy _ IH]; intros HQ; [constructor|].
  apply Forall_cons in HQ as [Hy HQ]. constructor; auto.
Qed.

Lemma catalogueLines_no_CR themes :
  Forall (fun theme => storableTheme theme = true) themes ->
  Forall (fun s => hasUnit Js.CR s = false) (catalogueLines themes).
Proof.
  induction 1 as [|theme rest Htheme Hrest IH]; [constructor|].
  cbn [catalogueLines]. apply Forall_app. split.
  - destruct (recordLines_lines theme Htheme) as (Htext & _).
    eapply Forall_impl; [exact Htext|]. intros s Hs. now apply textLine_spec in Hs.
  - destruct rest as [|next rest]; [constructor|].
    apply Forall_app. split; [|exact IH].
    repeat constructor.
Qed.

Lemma storable_catalogue_read_back localeCompare themes :
  Forall (fun theme => storableTheme theme = true) themes ->
  sortThemes localeCompare themes = Ok themes ->
  hasCommonTheme themes = true ->
  exists text parsed,
    formatUrlSelectorConfig localeCompare themes = Ok text
    /\ parseUrlSelectorConfig text = Ok parsed
    /\ Forall2 sameRecord themes parsed.
Proof.
  intros Hall Hsorted Hcommon.
  exists (Js.join [Js.LF] (catalogueLines themes ++ [[]])), (map parsedTheme themes).
  split; [now apply formatUrlSelectorConfig_sorted|].
  apply hasCommonTheme_true in Hcommon as (common & others & more & -> & Hurl).
  set (themes := common :: others) in *.
  split.
  - unfold parseUrlSelectorConfig, parseBlocks, splitBlocks.
    rewrite removeCR_id.
    2:{ apply hasUnit_join; [reflexivity|].
        apply Forall_app. split; [now apply catalogueLines_no_CR|].
        repeat constructor. }
    rewrite (mapM_Forall2 parseBlock parsedTheme _ themes).
    + cbn [mbind result_bind].
      replace (hasCommonTheme (map parsedTheme themes)) with true; [reflexivity|].
      symmetry. apply hasCommonTheme_true.
      exists (parsedTheme common), (map parsedTheme others), more.
      split; [reflexivity|]. now rewrite parsedTheme_url.
    + pose proof (splitEqRuns_catalogue themes 0) as Hblocks.
      cbn [repeat app] in Hblocks.
      eapply Forall2_impl;
        [apply Forall2_and_r; [apply Hblocks; [discriminate | exact Hall] | exact Hall]|].
      cbn beta. intros block theme [Hlines Hst].
      now apply parseBlock_theme.
  - apply Forall2_fmap_r. apply Forall_Forall2_diag.
    eapply Forall_impl; [exact Hall|]. intros theme Ht. now apply parsedTheme_sameRecord.
Qed.

(** The text of a catalogue of storable themes, sorted and with the
    common theme first, is read back as a catalogue of the same
    themes. *)
Theorem format_parse_roundtrip localeCompare themes :
  Forall (fun theme => storableTheme theme = true) themes ->
  sortThemes localeCompare themes = Ok themes ->
  hasCommonTheme themes = true ->
  exists text parsed,
    formatUrlSelectorConfig localeCompare themes = Ok text
    /\ parseUrlSelectorConfig text = Ok parsed
    /\ Forall2 sameRecord themes parsed.
Proof.
  exact (storable_catalogue_read_back localeCompare themes).
Qed.

(** A comparator for the instances: the order of the code units. *)
Fixpoint codeUnitCompare (a b : jstring) : Z :=
  match a, b with
  | [], [] => 0
  | [], _ :: _ => -1
  | _ :: _, [] => 1
  | x :: a', y :: b' =>
      match N.compare (Js.code x) (Js.code y) with
      | Lt => -1
      | Gt => 1
      | Eq => codeUnitCompare a' b'
      end
  end%Z.

Definition storedCatalogue : list StaticTheme := [
  mkTheme [js "*"] {[ js "neutralBg" := VArr [js "body"; js ".page"] ]};
  mkTheme [js "example.com"; js "www.example.com"]
          (<[ js "noCommon" := VBool true ]>
             (<[ js "redText" := VArr [js "a[href=x]"] ]>
                {[ js "neutralBgActive" := VArr [js "header"] ]}))
].

Lemma format_parse_roundtrip_witness :
  exists text parsed,
    formatUrlSelectorConfig codeUnitCompare storedCatalogue = Ok text
    /\ parseUrlSelectorConfig text = Ok parsed
    /\ Forall2 sameRecord storedCatalogue parsed.
Proof.
  apply (format_parse_roundtrip codeUnitCompare storedCatalogue).
  - unfold storedCatalogue.
    repeat (apply Forall_cons_2; [vm_compute; reflexivity|]).
    apply Forall_nil_2.
  - vm_compute. reflexivity.
  - vm_compute. reflexivity.
Defined.

(** * Further properties *)

(** ** SpecificityResolver: errors and the absence of a match *)

Lemma mapM_Err_iff {A B} (f : A -> result B) (e : error) (l : list A) :
  (forall x e', f x = Err e' -> e' = e) ->
  mapM f l = Err e <-> exists x, x ∈ l /\ f x = Err e.
Proof.
  intros Hf. induction l as [|x l IH]; cbn [mapM].
  - split; [discriminate | intros (x & Hx & _); inversion Hx].
  - destruct (f x) as [y|e'] eqn:Hx; cbn [mbind result_bind].
    + assert (Hbind : (k ← mapM f l; mret (y :: k)) = Err e <-> mapM f l = Err e).
      { destruct (mapM f l); cbn [mbind result_bind]; split; (discriminate || auto). }
      rewrite Hbind, IH. split.
      * intros (z & Hz & Hfz). exists z. split; [now constructor | assumption].
      * intros (z & Hz & Hfz). apply elem_of_cons in Hz as [->|Hz]; [congruence|].
        eauto.
    + pose proof (Hf _ _ Hx) as ->. split; [|reflexivity].
      intros _. exists x. split; [constructor | assumption].
Qed.

Lemma mapM_Err_elem {A B} (f : A -> result B) (e : error) (l : list A) :
  mapM f l = Err e -> exists x, x ∈ l /\ f x = Err e.
Proof.
  induction l as [|x l IH]; cbn [mapM]; [discriminate|].
  destruct (f x) as [y|e'] eqn:Hx; cbn [mbind result_bind].
  - destruct (mapM f l) as [k|e'']; cbn [mbind result_bind]; [discriminate|].
    intros [= ->]. destruct (IH eq_refl) as (z & Hz & Hfz).
    exists z. split; [now constructor | assumption].
  - intros [= ->]. exists x. split; [constructor | assumption].
Qed.

Section ResolverErrors.

Variable isUrlInList : jstring -> list jstring -> bool.

Lemma specificity_Err pageUrl theme e :
  specificity isUrlInList pageUrl theme = Err e
  <-> e = TypeError /\ url theme = [] /\ isUrlInList pageUrl [] = true.
Proof.
  unfold specificity. destruct (url theme) as [|p more].
  - destruct (isUrlInList pageUrl []); split.
    + intros [= <-]. auto.
    + intros (-> & _). reflexivity.
    + discriminate.
    + intros (_ & _ & H). discriminate H.
  - destruct (isUrlInList pageUrl (p :: more)); split;
      try discriminate; intros (_ & H & _); discriminate H.
Qed.

(** [getThemeFor] throws exactly when a theme after the first has an
    empty url list that [isUrlInList] accepts: [theme.url[0]] is then
    [undefined] and has no [length].  The exception is a [TypeError]. *)
Theorem getThemeFor_throws_iff pageUrl themes :
  (getThemeFor isUrlInList pageUrl themes = Err TypeError
   <-> exists theme, theme ∈ drop 1 themes /\ url theme = []
                     /\ isUrlInList pageUrl [] = true)
  /\ getThemeFor isUrlInList pageUrl themes <> Err MalformedCatalogue.
Proof.
  unfold getThemeFor.
  set (f := fun theme => s ← specificity isUrlInList pageUrl theme; Ok (s, theme)).
  assert (Hf : forall x e', f x = Err e' -> e' = TypeError).
  { intros x e'. unfold f.
    destruct (specificity isUrlInList pageUrl x) as [s|e] eqn:E; [discriminate|].
    intros [= <-]. now apply specificity_Err in E. }
  pose proof (mapM_Err_iff f TypeError (drop 1 themes) Hf) as Hiff.
  destruct (mapM f (drop 1 themes)) as [scored|e] eqn:Hm; cbn [mbind result_bind].
  - split.
    + split.
      * destruct (Js.sortBy _ _); discriminate.
      * intros (theme & Hin & Hu & Hacc). destruct Hiff as [_ Hiff].
        discriminate Hiff. exists theme. split; [assumption|].
        unfold f. replace (specificity isUrlInList pageUrl theme) with (@Err nat TypeError);
          [reflexivity|]. symmetry. now apply specificity_Err.
    + destruct (Js.sortBy _ _); discriminate.
  - assert (e = TypeError) as ->.
    { destruct (mapM_Err_elem f e _ Hm) as (x & _ & Hx). exact (Hf _ _ Hx). }
    split; [|discriminate]. split; [|reflexivity].
    intros _. destruct Hiff as [Hiff _]. destruct (Hiff eq_refl) as (theme & Hin & Hth).
    exists theme. split; [assumption|]. unfold f in Hth.
    destruct (specificity isUrlInList pageUrl theme) as [s|e] eqn:E; [discriminate|].
    apply specificity_Err in E as (_ & Hu & Hacc). auto.
Qed.

(** When [isUrlInList] accepts the url list of no theme after the first
    (so also on a catalogue that holds the common theme only, and on the
    empty catalogue), [getThemeFor] returns [null], whatever the url
    lists hold. *)
Theorem getThemeFor_no_match pageUrl themes :
  (forall theme, theme ∈ drop 1 themes -> isUrlInList pageUrl (url theme) = false) ->
  getThemeFor isUrlInList pageUrl themes = Ok None.
Proof.
  intros Hno. unfold getThemeFor.
  rewrite (mapM_Ok_map _ (fun t => (0, t))).
  2:{ intros t Ht. unfold specificity. now rewrite (Hno t Ht). }
  cbn [mbind result_bind].
  replace (List.filter (fun a : nat * StaticTheme => (0 <? a.1)%nat)
                       (map (fun t => (0, t)) (drop 1 themes))) with (@nil (nat * StaticTheme)).
  - reflexivity.
  - clear Hno. induction (drop 1 themes) as [|t l IH]; [reflexivity|].
    cbn [map List.filter fst Nat.ltb Nat.leb]. exact IH.
Qed.

End ResolverErrors.

Lemma getThemeFor_no_match_witness :
  getThemeFor exactMatch (js "example.net") sampleCatalogue = Ok None.
Proof.
  apply (getThemeFor_no_match exactMatch (js "example.net") sampleCatalogue).
  intros theme Hin. unfold sampleCatalogue in Hin. cbn [drop] in Hin.
  apply elem_of_cons in Hin as [->|Hin]; [reflexivity|].
  apply elem_of_cons in Hin as [->|Hin]; [reflexivity|].
  inversion Hin.
Defined.

(** ** The round trip of the specification *)

Lemma sameRecord_urls themes parsed :
  Forall2 sameRecord themes parsed -> map url themes = map url parsed.
Proof.
  induction 1 as [|a b l k (Hu & _) _ IH]; [reflexivity|].
  cbn [map]. now rewrite Hu, IH.
Qed.

(** C2, as the code has it.  A catalogue as the claim has it (declared
    properties only, selectors that are not blank and no headers, url
    lists that are not empty, sorted, the common theme first) is read
    back from its text as a catalogue of the same themes when, moreover,
    every url pattern and every selector is a clean line: trimmed,
    without line feed, carriage return or two ['='] in a row, and no
    header. *)
Theorem declared_catalogue_roundtrip localeCompare themes :
  Forall (fun theme => declaredTheme theme = true) themes ->
  Forall (fun theme => forallb cleanLine (url theme) = true
                       /\ propsOk cleanLine theme = true) themes ->
  sortThemes localeCompare themes = Ok themes ->
  hasCommonTheme themes = true ->
  exists text parsed,
    formatUrlSelectorConfig localeCompare themes = Ok text
    /\ parseUrlSelectorConfig text = Ok parsed
    /\ Forall2 sameRecord themes parsed.
Proof.
  intros Hdeclared Hclean. apply storable_catalogue_read_back.
  rewrite Forall_forall in Hdeclared, Hclean. apply Forall_forall. intros theme Hin.
  specialize (Hdeclared _ Hin). destruct (Hclean _ Hin) as [Hu Hp].
  unfold declaredTheme in Hdeclared. apply andb_true_iff in Hdeclared as [Hlen _].
  unfold storableTheme. now rewrite Hlen, Hu, Hp.
Qed.

Lemma declared_catalogue_roundtrip_witness :
  exists text parsed,
    formatUrlSelectorConfig codeUnitCompare storedCatalogue = Ok text
    /\ parseUrlSelectorConfig text = Ok parsed
    /\ Forall2 sameRecord storedCatalogue parsed.
Proof.
  apply (declared_catalogue_roundtrip codeUnitCompare storedCatalogue).
  - unfold storedCatalogue.
    repeat (apply Forall_cons_2; [vm_compute; reflexivity|]).
    apply Forall_nil_2.
  - unfold storedCatalogue.
    repeat (apply Forall_cons_2; [split; vm_compute; reflexivity|]).
    apply Forall_nil_2.
  - vm_compute. reflexivity.
  - vm_compute. reflexivity.
Defined.

(** A url pattern that is a header line, and a selector with two ['=']
    in a row. *)
Definition headerUrlCatalogue : list StaticTheme :=
  [mkTheme [js "*"; js "INTRANET"] {[ js "neutralBg" := VArr [js "body"] ]}].

Definition delimiterSelectorCatalogue : list StaticTheme :=
  [mkTheme [js "*"] {[ js "neutralBg" := VArr [js "a[title==x]"] ]}].

Definition urlsReadBack (localeCompare : jstring -> jstring -> Z)
    (themes : list StaticTheme) : list (list jstring) :=
  match formatUrlSelectorConfig localeCompare themes with
  | Ok text =>
      match parseUrlSelectorConfig text with
      | Ok parsed => map url parsed
      | Err _ => []
      end
  | Err _ => []
  end.

Lemma not_read_back localeCompare themes :
  urlsReadBack localeCompare themes <> map url themes ->
  ~ exists text parsed,
      formatUrlSelectorConfig localeCompare themes = Ok text
      /\ parseUrlSelectorConfig text = Ok parsed
      /\ Forall2 sameRecord themes parsed.
Proof.
  intros Hne (text & parsed & Hf & Hp & Hs). apply Hne.
  unfold urlsReadBack. rewrite Hf, Hp. symmetry. now apply sameRecord_urls.
Qed.

(** C2: two catalogues as the claim has them whose text is not read
    back as the same themes.  The url pattern [INTRANET] is taken for a
    header, so the first theme comes back with the url list [*] alone;
    the selector [a[title==x]] holds a delimiter, so one theme comes
    back as two. *)
Lemma declared_catalogue_not_read_back :
  (Forall (fun theme => declaredTheme theme = true) headerUrlCatalogue
   /\ sortThemes codeUnitCompare headerUrlCatalogue = Ok headerUrlCatalogue
   /\ hasCommonTheme headerUrlCatalogue = true
   /\ urlsReadBack codeUnitCompare headerUrlCatalogue = [[js "*"]]
   /\ ~ exists text parsed,
          formatUrlSelectorConfig codeUnitCompare headerUrlCatalogue = Ok text
          /\ parseUrlSelectorConfig text = Ok parsed
          /\ Forall2 sameRecord headerUrlCatalogue parsed)
  /\ (Forall (fun theme => declaredTheme theme = true) delimiterSelectorCatalogue
      /\ sortThemes codeUnitCompare delimiterSelectorCatalogue = Ok delimiterSelectorCatalogue
      /\ hasCommonTheme delimiterSelectorCatalogue = true
      /\ urlsReadBack codeUnitCompare delimiterSelectorCatalogue = [[js "*"]; [js "x]"]]
      /\ ~ exists text parsed,
             formatUrlSelectorConfig codeUnitCompare delimiterSelectorCatalogue = Ok text
             /\ parseUrlSelectorConfig text = Ok parsed
             /\ Forall2 sameRecord delimiterSelectorCatalogue parsed).
Proof.
  assert (Ha : urlsReadBack codeUnitCompare headerUrlCatalogue = [[js "*"]])
    by (vm_compute; reflexivity).
  assert (Hb : urlsReadBack codeUnitCompare delimiterSelectorCatalogue = [[js "*"]; [js "x]"]])
    by (vm_compute; reflexivity).
  split.
  - split; [apply Forall_cons_2; [vm_compute; reflexivity | apply Forall_nil_2]|].
    split; [vm_compute; reflexivity|]. split; [vm_compute; reflexivity|].
    split; [exact Ha|].
    apply not_read_back. rewrite Ha. vm_compute. discriminate.
  - split; [apply Forall_cons_2; [vm_compute; reflexivity | apply Forall_nil_2]|].
    split; [vm_compute; reflexivity|]. split; [vm_compute; reflexivity|].
    split; [exact Hb|].
    apply not_read_back. rewrite Hb. vm_compute. discriminate.
Qed.

(** ** StylesheetGenerator: the shape of the stylesheet *)

Section StylesheetShape.

Variable shortestDecimal : float -> jstring.
Context {OtherSettings : Type}.
Variable applyFilterToColor : color -> FilterConfig OtherSettings -> color.
Variable createTextRule : FilterConfig OtherSettings -> jstring.
Variable isUrlInList : jstring -> list jstring -> bool.

(** A line of [lines] that is a rule or the comment of a theme. *)
Definition isThemeComment (text : jstring) : Prop :=
  text = js "/* Common theme */" \/ exists patterns, text = js "/* Theme for " ++ patterns.

Definition isBlockLine (ln : option jstring) : Prop :=
  isRule ln \/ exists text, ln = Some text /\ isThemeComment text.

Lemma stylesheetLines_shape (config : FilterConfig OtherSettings) pageUrl common rest :
  typedTheme common ->
  Forall typedTheme rest ->
  Forall (fun t => url t <> []) rest ->
  exists first others,
    stylesheetLines shortestDecimal applyFilterToColor createTextRule isUrlInList
                    config pageUrl (common :: rest)
    = Ok (Some first :: others ++ fontBlock createTextRule config)
    /\ isThemeComment first
    /\ Forall isBlockLine others.
Proof.
  intros Hcommon Hrest Hurl.
  destruct (getThemeFor_first_greatest isUrlInList pageUrl (common :: rest) Hurl)
    as (siteTheme & Hsite & Hfirst).
  destruct (runRuleGenerators_Ok shortestDecimal applyFilterToColor config common Hcommon)
    as (crules & Hcrules & Hcr).
  assert (Hrules : forall rules, Forall isRule rules -> Forall isBlockLine rules).
  { intros rules H. eapply Forall_impl; [exact H|]. intros ln Hln. now left. }
  unfold stylesheetLines. rewrite Hsite. cbn [mbind result_bind].
  destruct siteTheme as [s|].
  - destruct Hfirst as (_ & p & q & Hpq & _).
    change (drop 1 (common :: rest)) with rest in Hpq.
    assert (Hs : typedTheme s).
    { rewrite Forall_forall in Hrest. apply Hrest. rewrite Hpq.
      apply elem_of_app. right. constructor. }
    destruct (runRuleGenerators_Ok shortestDecimal applyFilterToColor config s Hs)
      as (srules & Hsrules & Hsr).
    unfold commonBlock, siteBlock. rewrite Hsrules.
    destruct (noCommon s); cbn [negb mbind result_bind].
    + eexists _, srules. split; [reflexivity|].
      split; [right; eauto | now apply Hrules].
    + cbn [getCommonTheme lookup list_lookup]. rewrite Hcrules. cbn [mbind result_bind].
      eexists _, (crules ++ Some (js "/* Theme for " ++ Js.join (js " ") (url s)
                                  ++ js " */") :: srules).
      split; [rewrite <- !app_assoc; reflexivity|].
      split; [now left|].
      apply Forall_app. split; [now apply Hrules|].
      constructor; [|now apply Hrules].
      right. eexists. split; [reflexivity|]. right. eauto.
  - unfold commonBlock, siteBlock. cbn [getCommonTheme lookup list_lookup].
    rewrite Hcrules. cbn [mbind result_bind].
    eexists _, crules. split; [reflexivity|]. split; [now left | now apply Hrules].
Qed.

(** On the empty catalogue the generator throws: the common theme is
    [undefined] and the first rule generator reads a selector list of
    it.  On a catalogue of typed themes (the first, and those after it
    with a url list that is not empty) it returns a stylesheet that
    starts with a comment, so the stylesheet is never the empty
    string. *)
Theorem createStaticStylesheet_starts_with_comment
    (config : FilterConfig OtherSettings) pageUrl :
  createStaticStylesheet shortestDecimal applyFilterToColor createTextRule isUrlInList
                         config pageUrl [] = Err TypeError
  /\ forall common rest,
       typedTheme common ->
       Forall typedTheme rest ->
       Forall (fun t => url t <> []) rest ->
       exists text,
         createStaticStylesheet shortestDecimal applyFilterToColor createTextRule isUrlInList
                                config pageUrl (common :: rest)
         = Ok (js "/* " ++ text).
Proof.
  split; [reflexivity|].
  intros common rest Hcommon Hrest Hurl.
  destruct (stylesheetLines_shape config pageUrl common rest Hcommon Hrest Hurl)
    as (first & others & Hlines & Hfirst & _).
  unfold createStaticStylesheet. rewrite Hlines. cbn [mbind result_bind].
  destruct Hfirst as [->|(patterns & ->)];
    cbn [omap list_omap keptLine js list_ascii_of_string app];
    rewrite join_cons_prefix; eexists; cbn [app]; reflexivity.
Qed.

Lemma themeComment_not_font text : isThemeComment text -> text <> js "/* Font */".
Proof.
  intros [->|(patterns & ->)] H; discriminate H.
Qed.

Lemma blockLine_not_font ln : isBlockLine ln -> ln <> Some (js "/* Font */").
Proof.
  intros [Hr|(text & -> & Ht)] H.
  - subst ln. destruct Hr as (pre & Hpre).
    apply (f_equal (@rev ascii)) in Hpre. rewrite rev_app_distr in Hpre.
    cbn in Hpre. discriminate Hpre.
  - injection H as H. exact (themeComment_not_font _ Ht H).
Qed.

Lemma omap_keptLine_blockLines (lines : list (option jstring)) (a b : jstring) :
  a <> [] -> b <> [] ->
  omap keptLine (lines ++ [Some a; Some b]) = omap keptLine lines ++ [a; b].
Proof.
  intros Ha Hb. rewrite omap_app. f_equal.
  destruct a; [contradiction|]. destruct b; [contradiction|]. reflexivity.
Qed.

(** The font block comes last.  The array [lines] is the lines of the
    theme blocks, none of them the comment of the font block, followed,
    when [config.useFont] holds or [config.textStroke] is greater than
    0, by that comment and the rule [* ] with the text of
    [createTextRule]; the stylesheet is the text of the theme blocks,
    followed in that case by the two lines of the font block. *)
Theorem font_block_last (config : FilterConfig OtherSettings) pageUrl common rest :
  typedTheme common ->
  Forall typedTheme rest ->
  Forall (fun t => url t <> []) rest ->
  exists lines,
    stylesheetLines shortestDecimal applyFilterToColor createTextRule isUrlInList
                    config pageUrl (common :: rest)
    = Ok (lines ++ if useFont config || (0 <? textStroke config)%float
                   then [Some (js "/* Font */"); Some (js "* " ++ createTextRule config)]
                   else [])
    /\ (Some (js "/* Font */") ∉ lines)
    /\ createStaticStylesheet shortestDecimal applyFilterToColor createTextRule isUrlInList
                              config pageUrl (common :: rest)
       = Ok (Js.join [Js.LF] (omap keptLine lines)
             ++ if useFont config || (0 <? textStroke config)%float
                then [Js.LF] ++ js "/* Font */" ++ [Js.LF] ++ js "* " ++ createTextRule config
                else []).
Proof.
  intros Hcommon Hrest Hurl.
  destruct (stylesheetLines_shape config pageUrl common rest Hcommon Hrest Hurl)
    as (first & others & Hlines & Hfirst & Hothers).
  exists (Some first :: others).
  unfold createStaticStylesheet. rewrite Hlines. unfold fontBlock.
  split; [reflexivity|]. split.
  - intros Hin. apply elem_of_cons in Hin as [Hin|Hin].
    + injection Hin as Hin. exact (themeComment_not_font _ Hfirst (eq_sym Hin)).
    + rewrite Forall_forall in Hothers.
      exact (blockLine_not_font _ (Hothers _ Hin) eq_refl).
  - cbn [mbind result_bind].
    destruct (useFont config || (0 <? textStroke config)%float).
    + change (Some first :: others
              ++ [Some (js "/* Font */"); Some (js "* " ++ createTextRule config)])
        with ((Some first :: others)
              ++ [Some (js "/* Font */"); Some (js "* " ++ createTextRule config)]).
      rewrite omap_keptLine_blockLines by discriminate.
      assert (Hne : omap keptLine (Some first :: others) <> []).
      { destruct Hfirst as [->|(patterns & ->)]; discriminate. }
      rewrite join_app by (assumption || discriminate). reflexivity.
    + now rewrite !app_nil_r.
Qed.

End StylesheetShape.

(** *** Instances *)

Lemma createStaticStylesheet_starts_with_comment_witness :
  exists text,
    createStaticStylesheet (fun _ => js "0.5") (fun c _ => c) (fun _ => js "font-family: serif")
                           exactMatch sampleConfig (js "example.org")
                           (commonSample :: [siteSample; mirrorSample])
    = Ok (js "/* " ++ text).
Proof.
  apply (proj2 (createStaticStylesheet_starts_with_comment
                  (fun _ => js "0.5") (fun c _ => c) (fun _ => js "font-family: serif")
                  exactMatch sampleConfig (js "example.org"))
               commonSample [siteSample; mirrorSample]).
  - apply typedThemeb_typed. vm_compute. reflexivity.
  - repeat constructor; apply typedThemeb_typed; vm_compute; reflexivity.
  - repeat constructor; discriminate.
Defined.

Lemma font_block_last_witness :
  exists lines,
    stylesheetLines (fun _ => js "0.5") (fun c _ => c) (fun _ => js "font-family: serif")
                    exactMatch sampleConfig (js "example.com")
                    (commonSample :: [siteSample; mirrorSample])
    = Ok (lines ++ [Some (js "/* Font */"); Some (js "* font-family: serif")])
    /\ (Some (js "/* Font */") ∉ lines)
    /\ createStaticStylesheet (fun _ => js "0.5") (fun c _ => c)
                              (fun _ => js "font-family: serif")
                              exactMatch sampleConfig (js "example.com")
                              (commonSample :: [siteSample; mirrorSample])
       = Ok (Js.join [Js.LF] (omap keptLine lines)
             ++ [Js.LF] ++ js "/* Font */" ++ [Js.LF] ++ js "* font-family: serif").
Proof.
  apply (font_block_last (fun _ => js "0.5") (fun c _ => c) (fun _ => js "font-family: serif")
                         exactMatch sampleConfig (js "example.com")
                         commonSample [siteSample; mirrorSample]).
  - apply typedThemeb_typed. vm_compute. reflexivity.
  - repeat constructor; apply typedThemeb_typed; vm_compute; reflexivity.
  - repeat constructor; discriminate.
Defined.
